(** * FM training deck: navigation, countdown timer and jump grid

    A shallow embedding of the state-bearing parts of
    [fm_training_storyline_interactive_html_deck.jsx]:

    - [Deck]: the slide index, [go], the [keydown] listener installed by
      the mount effect, the Prev/Next buttons and the quick-jump grid;
    - [OneMinuteTimer]: the two [useState] cells, the effect that arms a
      one-shot [setTimeout] and its cleanup, over a host with a virtual
      clock and a timer queue;
    - the rendered texts: the timer read-out and the jump-grid labels.

    Numbers are JavaScript numbers holding small integers; they are
    modelled as [Z].  Strings are modelled as byte strings in UTF-8 (the
    source file's own encoding); the only non-ASCII character that
    matters, the em dash, is the three bytes E2 80 94. *)

From Stdlib Require Import ZArith List String Ascii Bool Lia.
From Stdlib Require Import DecimalString.
From Stdlib Require Import Floats.
Import ListNotations.

Open Scope Z_scope.

(** ** Deck shell *)

Module Deck.

Section Shell.

(** [const total = slides.length] *)
Variable total : Z.

(** [const go = (d) => setIdx((i) => Math.max(0, Math.min(total-1, i + d)))]:
    the updater function handed to [setIdx]. *)
Definition go (d : Z) (i : Z) : Z :=
  Z.max 0 (Z.min (total - 1) (i + d)).

(** The specification's [clamp(x, lo, hi)], written from its words. *)
Definition clamp (x lo hi : Z) : Z :=
  if x <? lo then lo else if hi <? x then hi else x.

Definition in_range (i : Z) : Prop := 0 <= i <= total - 1.

(** A sequence of [go] calls, oldest first. *)
Definition steps (ds : list Z) (i : Z) : Z :=
  fold_left (fun i d => go d i) ds i.

(** [onKey]: two independent [if]s, each queueing one updater. *)
Definition onKey (key : string) (i : Z) : Z :=
  let i1 := if String.eqb key "ArrowRight" then go 1 i else i in
  if String.eqb key "ArrowLeft" then go (-1) i1 else i1.

(** [disabled={idx===0}] and [disabled={idx===total-1}] *)
Definition prev_disabled (i : Z) : bool := i =? 0.
Definition next_disabled (i : Z) : bool := i =? total - 1.

(** The step a click on Prev / Next asks for: a disabled button does
    not run its [onClick]. *)
Definition prev_request (i : Z) : option Z :=
  if prev_disabled i then None else Some (-1).
Definition next_request (i : Z) : option Z :=
  if next_disabled i then None else Some 1.

Definition apply_request (r : option Z) (i : Z) : Z :=
  match r with
  | Some d => go d i
  | None => i
  end.

(** The page: the mounted [Deck] instance, if any, with its [idx]
    cell; the [keydown] listeners registered on [window], each named by
    the instance whose [onKey] closure it is; the next instance name. *)
Record page : Type := mkPage {
  inst : option (nat * Z);
  listeners : list nat;
  fresh : nat
}.

(** [window.addEventListener]: a listener already present is not added
    twice. *)
Definition addEventListener (id : nat) (l : list nat) : list nat :=
  if existsb (Nat.eqb id) l then l else (l ++ [id])%list.

(** [window.removeEventListener] *)
Definition removeEventListener (id : nat) (l : list nat) : list nat :=
  filter (fun j => negb (Nat.eqb id j)) l.

(** [setIdx(f)] issued by the closure of instance [id]: an update
    aimed at an instance that is no longer mounted is dropped. *)
Definition setIdx (id : nat) (f : Z -> Z) (p : page) : page :=
  match inst p with
  | Some (id', i) =>
      if Nat.eqb id id' then mkPage (Some (id', f i)) (listeners p) (fresh p)
      else p
  | None => p
  end.

Inductive event : Type :=
| Mount
| Unmount
| KeyDown (key : string)
| ClickPrev
| ClickNext
| ClickJump (i : nat).

Definition initial : page := mkPage None [] 0%nat.

Definition step (e : event) (p : page) : page :=
  match e with
  | Mount =>
      match inst p with
      | Some _ => p
      | None =>
          (* useState(0), then the mount effect *)
          mkPage (Some (fresh p, 0))
                 (addEventListener (fresh p) (listeners p))
                 (S (fresh p))
      end
  | Unmount =>
      match inst p with
      | Some (id, _) =>
          (* the effect's cleanup *)
          mkPage None (removeEventListener id (listeners p)) (fresh p)
      | None => p
      end
  | KeyDown key =>
      fold_left (fun q id => setIdx id (onKey key) q) (listeners p) p
  | ClickPrev =>
      match inst p with
      | Some (id, i) => setIdx id (apply_request (prev_request i)) p
      | None => p
      end
  | ClickNext =>
      match inst p with
      | Some (id, i) => setIdx id (apply_request (next_request i)) p
      | None => p
      end
  | ClickJump n =>
      (* one grid button per slide: [onClick={() => setIdx(i)}] *)
      match inst p with
      | Some (id, _) =>
          if Z.of_nat n <? total then setIdx id (fun _ => Z.of_nat n) p
          else p
      | None => p
      end
  end.

Definition run (es : list event) (p : page) : page :=
  fold_left (fun q e => step e q) es p.

Definition reachable (p : page) : Prop :=
  exists es, p = run es initial.

Definition current (p : page) : option Z :=
  match inst p with
  | Some (_, i) => Some i
  | None => None
  end.

(** What holds of the page after every event. *)
Definition page_ok (p : page) : Prop :=
  match inst p with
  | Some (id, i) =>
      listeners p = [id] /\ (id < fresh p)%nat /\ in_range i
  | None => listeners p = []
  end.

End Shell.

End Deck.

(** ** One-minute timer *)

Module OneMinuteTimer.

(** The widget together with the host it runs on.

    - [seconds], [running]: the two [useState] cells;
    - [cleanup]: the timeout id captured by the cleanup closure that the
      last run of the effect returned ([None] when it returned nothing);
    - [mounted]: whether the widget is on the page;
    - [now], [next_id], [queue]: the host's clock in milliseconds, the
      next timeout id and the pending timeouts with their due times;
    - [fired]: instrumentation, the number of timeout callbacks run. *)
Record state : Type := mkState {
  seconds : Z;
  running : bool;
  cleanup : option nat;
  mounted : bool;
  now : Z;
  next_id : nat;
  queue : list (nat * Z);
  fired : nat
}.

Definition with_cells (s : Z) (r : bool) (st : state) : state :=
  mkState s r (cleanup st) (mounted st) (now st) (next_id st) (queue st)
          (fired st).

Definition with_cleanup (c : option nat) (st : state) : state :=
  mkState (seconds st) (running st) c (mounted st) (now st) (next_id st)
          (queue st) (fired st).

Definition with_queue (q : list (nat * Z)) (st : state) : state :=
  mkState (seconds st) (running st) (cleanup st) (mounted st) (now st)
          (next_id st) q (fired st).

(** [setTimeout(cb, delay)]: returns the new id. *)
Definition setTimeout (delay : Z) (st : state) : nat * state :=
  (next_id st,
   mkState (seconds st) (running st) (cleanup st) (mounted st) (now st)
           (S (next_id st)) (queue st ++ [(next_id st, now st + delay)])
           (fired st)).

(** [clearTimeout(id)]: unknown or already fired ids are ignored. *)
Definition clearTimeout (id : nat) (st : state) : state :=
  with_queue (filter (fun e => negb (Nat.eqb (fst e) id)) (queue st)) st.

(** The body of [useEffect(() => { ... }, [seconds, running])]. *)
Definition effect (st : state) : state :=
  if negb (running st) then with_cleanup None st
  else if seconds st =? 0 then with_cleanup None st
  else
    let '(id, st1) := setTimeout 1000 st in
    with_cleanup (Some id) st1.

(** The cleanup returned by the previous run of the effect. *)
Definition run_cleanup (st : state) : state :=
  match cleanup st with
  | Some id => clearTimeout id st
  | None => st
  end.

(** A batch of state updates that leaves the cells at [s], [r]: when a
    dependency changed, the old cleanup runs and then the effect; an
    update of an unmounted widget is dropped. *)
Definition commit (s : Z) (r : bool) (st : state) : state :=
  if mounted st then
    if (s =? seconds st) && Bool.eqb r (running st) then st
    else effect (run_cleanup (with_cells s r st))
  else st.

(** The three buttons. *)
Definition start (st : state) : state := commit (seconds st) true st.
Definition pause (st : state) : state := commit (seconds st) false st.
Definition reset (st : state) : state := commit 60 false st.

(** Unmounting runs the last cleanup. *)
Definition unmount (st : state) : state :=
  if mounted st then
    let st1 := run_cleanup st in
    mkState (seconds st1) (running st1) None false (now st1) (next_id st1)
            (queue st1) (fired st1)
  else st.

(** The timeout callback [() => setSeconds((s) => s - 1)]. *)
Definition callback (st : state) : state :=
  let st1 :=
    mkState (seconds st) (running st) (cleanup st) (mounted st) (now st)
            (next_id st) (queue st) (S (fired st)) in
  commit (seconds st1 - 1) (running st1) st1.

Definition pending (id : nat) (st : state) : bool :=
  existsb (fun e => Nat.eqb (fst e) id) (queue st).

(** The host runs the timeouts that were due, oldest first; one that an
    earlier callback cleared meanwhile does not run. *)
Fixpoint run_due (due : list (nat * Z)) (st : state) : state :=
  match due with
  | [] => st
  | (id, _) :: rest =>
      if pending id st then run_due rest (callback (clearTimeout id st))
      else run_due rest st
  end.

(** One millisecond of the virtual clock. *)
Definition tick_ms (st : state) : state :=
  let st1 :=
    mkState (seconds st) (running st) (cleanup st) (mounted st) (now st + 1)
            (next_id st) (queue st) (fired st) in
  run_due (filter (fun e => snd e <=? now st1) (queue st1)) st1.

Definition elapse (ms : nat) (st : state) : state :=
  Nat.iter ms tick_ms st.

(** First render ([useState(60)], [useState(false)]) and first run of
    the effect, on a host whose clock shows [t0] and whose next timeout
    id is [id0]. *)
Definition mount (t0 : Z) (id0 : nat) : state :=
  effect (mkState 60 false None true t0 id0 [] 0%nat).

Inductive event : Type :=
| Start
| Pause
| Reset
| Unmount
| Elapse (ms : nat).

Definition step (e : event) (st : state) : state :=
  match e with
  | Start => start st
  | Pause => pause st
  | Reset => reset st
  | Unmount => unmount st
  | Elapse ms => elapse ms st
  end.

Definition run (es : list event) (st : state) : state :=
  fold_left (fun s e => step e s) es st.

Definition reachable (st : state) : Prop :=
  exists t0 id0 es, st = run es (mount t0 id0).

Definition is_reset (e : event) : bool :=
  match e with
  | Reset => true
  | _ => false
  end.

(** What holds of the widget and the host after every event. *)
Definition timer_ok (st : state) : Prop :=
  0 <= seconds st <= 60 /\
  if mounted st && running st && negb (seconds st =? 0) then
    exists id due,
      cleanup st = Some id /\ queue st = [(id, due)] /\
      now st < due <= now st + 1000
  else cleanup st = None /\ queue st = [].

(** *** Shapes of states used in the proofs *)

(** The state with the clock moved on by [d] and nothing else changed. *)
Definition shift (d : Z) (st : state) : state :=
  mkState (seconds st) (running st) (cleanup st) (mounted st) (now st + d)
          (next_id st) (queue st) (fired st).

(** The armed state: running, not at zero, with one timeout queued whose
    id the cleanup holds. *)
Definition armed (s : Z) (id : nat) (due t : Z) (n f : nat) : state :=
  mkState s true (Some id) true t n [(id, due)] f.

(** At zero nothing but [reset] changes anything except the clock and
    the [running] flag. *)
Definition at_zero (f : nat) (st : state) : Prop :=
  seconds st = 0 /\ cleanup st = None /\ queue st = [] /\ fired st = f.

(** Once unmounted with nothing queued, nothing changes but the clock. *)
Definition torn_down (s : Z) (f : nat) (st : state) : Prop :=
  mounted st = false /\ queue st = [] /\ seconds st = s /\ fired st = f.

(** Pause and start again at once, then wait [n] ms; once for every
    entry of [ns]. *)
Definition pause_resume (ns : list nat) : list event :=
  flat_map (fun n => [Pause; Start; Elapse n]) ns.

(** *** The read-out *)

(** [String(n)] for an integer [n]. *)
Definition String_ (n : Z) : string :=
  NilZero.string_of_int (Z.to_int n).

Fixpoint repeat_string (n : nat) (s : string) : string :=
  match n with
  | O => EmptyString
  | S k => (s ++ repeat_string k s)%string
  end.

(** [s.padStart(target, pad)] *)
Definition padStart (target : nat) (pad : string) (s : string) : string :=
  let len := String.length s in
  if (target <=? len)%nat then s
  else if (String.length pad =? 0)%nat then s
  else
    let fill := (target - len)%nat in
    (substring 0 fill (repeat_string fill pad) ++ s)%string.

(** [{String(Math.floor(seconds/60)).padStart(1,"0")}:{String(seconds%60).padStart(2,"0")}] *)
Definition readout (s : Z) : string :=
  (padStart 1 "0" (String_ (s / 60)) ++ ":" ++
   padStart 2 "0" (String_ (Z.rem s 60)))%string.

(** The specification's "zero-padded to width [w]", from its words:
    the decimal digits, with as many zeros in front as are missing. *)
Definition zero_padded (w : nat) (n : Z) : string :=
  let digits := String_ n in
  (repeat_string (w - String.length digits) "0" ++ digits)%string.

Definition digit (n : Z) : ascii :=
  ascii_of_nat (48 + Z.to_nat n).

(** The read-out spelled out: a minutes digit, a colon, two seconds
    digits. *)
Definition m_ss (s : Z) : string :=
  String (digit (s / 60))
    (String ":"
       (String (digit (s mod 60 / 10))
          (String (digit (s mod 60 mod 10)) EmptyString))).

(** The comparison run over 0..60 in the proof of the read-out's
    format. *)
Definition readout_checked (n : nat) : bool :=
  String.eqb (readout (Z.of_nat n)) (m_ss (Z.of_nat n)).

End OneMinuteTimer.

(** ** Quick-jump grid *)

Module JumpGrid.

Open Scope string_scope.

Inductive slide_type : Type := section | content.

(** [type Slide]; the [icon] and [content] fields are opaque views and
    are left out. *)
Record Slide : Type := mkSlide {
  key : string;
  title : string;
  type : option slide_type
}.

Definition slides : list Slide :=
  [ mkSlide "sec-1" "Section 1 — Foundations (FMM, Principles, Objectives)" (Some section);
    mkSlide "s1-1" "Slide 1 — Title & Session Map" None;
    mkSlide "s1-2" "Slide 2 — Why Data Collection Matters" None;
    mkSlide "s1-3" "Slide 3 — Principles & Objectives of Field Monitoring" None;
    mkSlide "sec-2" "Section 2 — Data Collection Methods" (Some section);
    mkSlide "s2-1" "Slide 4 — Overview of Methods" None;
    mkSlide "s2-2" "Slide 5 — KII: Definition & Process" None;
    mkSlide "s2-3" "Slide 7 — FGD: Definition & Process" None;
    mkSlide "s2-4" "Slide 9 — Observation: Definition & Process" None;
    mkSlide "sec-3" "Section 3 — Ethics & Safeguarding" (Some section);
    mkSlide "s3-1" "Slide 11 — Core Ethics" None;
    mkSlide "s3-2" "Slide 12 — Consent & Confidentiality" None;
    mkSlide "s3-3" "Slide 13 — Child Safeguarding" None;
    mkSlide "s3-4" "Slide 14 — Referral Mechanisms" None;
    mkSlide "sec-4" "Section 4 — Field Monitoring Framework & Tools" (Some section);
    mkSlide "s4-1" "Slide 15 — FM Process (End-to-End)" None;
    mkSlide "s4-2" "Slide 16 — Monitoring Types & What to Monitor" None;
    mkSlide "s4-3" "Slide 17 — Mapping FM Questions to Methods (Triangulation Map)" None;
    mkSlide "sec-5" "Section 5 — Wrap-Up" (Some section);
    mkSlide "s5-1" "Slide 18 — Key Takeaways" None;
    mkSlide "s5-2" "Slide 19 — Resources (added back; previously omitted by others)" None;
    mkSlide "appendix" "Appendix — Meta-Insights (Facilitator)" None ]%list.

(** [slides.length] *)
Definition total : Z := Z.of_nat (List.length slides).

(** The separator of the two calls: a space, an em dash, a space. *)
Definition sep : string := " — ".

Fixpoint drop (n : nat) (s : string) : string :=
  match n, s with
  | O, _ => s
  | S k, EmptyString => EmptyString
  | S k, String _ s' => drop k s'
  end.

(** [hay.includes(needle)] *)
Fixpoint includes (needle hay : string) : bool :=
  if prefix needle hay then true
  else
    match hay with
    | EmptyString => false
    | String _ hay' => includes needle hay'
    end.

(** [s.split(d)] for a non-empty [d]: [cur] is the piece being read and
    [skip] the number of characters of a separator still to pass. *)
Fixpoint split_from (d : string) (skip : nat) (cur s : string) : list string :=
  match s with
  | EmptyString => [cur]%list
  | String c s' =>
      match skip with
      | S k => split_from d k cur s'
      | O =>
          if prefix d s then (cur :: split_from d (String.length d - 1) "" s')%list
          else split_from d 0 (cur ++ String c "") s'
      end
  end.

Definition split (d s : string) : list string := split_from d 0 "" s.

(** The line terminators, which [.] does not match: LF, CR, U+2028 and
    U+2029. *)
Definition line_terminators : list string :=
  [ String (ascii_of_nat 10) "";
    String (ascii_of_nat 13) "";
    String (ascii_of_nat 226) (String (ascii_of_nat 128) (String (ascii_of_nat 168) ""));
    String (ascii_of_nat 226) (String (ascii_of_nat 128) (String (ascii_of_nat 169) "")) ]%list.

Definition at_line_terminator (s : string) : bool :=
  existsb (fun t => prefix t s) line_terminators.

(** What is left of [s] once [.*] has taken all it can. *)
Fixpoint after_dots (s : string) : string :=
  match s with
  | EmptyString => EmptyString
  | String _ s' => if at_line_terminator s then s else after_dots s'
  end.

(** [s.replace(/ — .*/, "")]: the leftmost match is removed. *)
Fixpoint replace_sep_rest (s : string) : string :=
  if prefix sep s then after_dots (drop (String.length sep) s)
  else
    match s with
    | EmptyString => EmptyString
    | String c s' => String c (replace_sep_rest s')
    end.

(** First line of a grid button: [s.title.replace(/ — .*/, "")]. *)
Definition short_label (t : string) : string := replace_sep_rest t.

(** Second line:
    [s.title.includes("Slide") ? s.title.split(" — ")[1] : "Section"];
    [None] stands for [undefined], which renders as nothing. *)
Definition subtitle (t : string) : option string :=
  if includes "Slide" t then nth_error (split sep t) 1 else Some "Section".

(** The specification's reading: the title cut at its first separator
    into the text before it and the text after it. *)
Fixpoint cut (d s : string) : option (string * string) :=
  if prefix d s then Some ("", drop (String.length d) s)
  else
    match s with
    | EmptyString => None
    | String c s' =>
        match cut d s' with
        | Some (a, b) => Some (String c a, b)
        | None => None
        end
    end.

Definition text_before (t : string) : option string :=
  option_map fst (cut sep t).

Definition text_after (t : string) : option string :=
  option_map snd (cut sep t).

End JumpGrid.

(** ** What the deck shows *)

Module View.

Import JumpGrid.

#[local] Open Scope Z_scope.

(** [array.map((x, i) => ...)]: the callback also gets the index. *)
Fixpoint mapi_from {A B : Type} (f : A -> nat -> B) (i : nat) (l : list A)
  : list B :=
  match l with
  | [] => []
  | x :: l' => f x i :: mapi_from f (S i) l'
  end.

Definition mapi {A B : Type} (f : A -> nat -> B) (l : list A) : list B :=
  mapi_from f 0 l.

(** [slides[idx]]: [None] stands for [undefined]. *)
Definition slide_at (i : Z) : option Slide :=
  if i <? 0 then None else nth_error slides (Z.to_nat i).

(** [key={slides[idx].key}] of the animated panel. *)
Definition shown_key (p : Deck.page) : option string :=
  match Deck.current p with
  | Some i => option_map key (slide_at i)
  | None => None
  end.

(** One button of the quick-jump grid: its key, whether it carries the
    highlight classes ([i===idx]) and its two lines of text. *)
Record grid_button : Type := mkButton {
  button_key : string;
  highlighted : bool;
  first_line : string;
  second_line : option string
}.

Definition grid (idx : Z) : list grid_button :=
  mapi (fun s i =>
          mkButton (key s) (Z.of_nat i =? idx)
                   (short_label (title s)) (subtitle (title s)))
       slides.

(** A small integer as a JavaScript number. *)
Definition number (z : Z) : float := PrimFloat.of_uint63 (Uint63.of_Z z).

(** [<Progress value={((idx+1)/total)*100} />], in double precision. *)
Definition progress (idx total : Z) : float :=
  PrimFloat.mul (PrimFloat.div (number (idx + 1)) (number total)) (number 100).

(** The comparisons run over the deck's indices in the proof about the
    progress value. *)
Definition progress_checked (n : nat) : bool :=
  let v := progress (Z.of_nat n) total in
  PrimFloat.ltb (number 0) v && PrimFloat.leb v (number 100) &&
  Bool.eqb (PrimFloat.eqb v (number 100)) (Z.of_nat n =? total - 1) &&
  PrimFloat.ltb (progress (Z.of_nat n - 1) total) v.

End View.

(** ** The two arrow diagrams *)

Module SmartArt.

Import View.

#[local] Open Scope Z_scope.

Record rect : Type := mkRect { x : Z; y : Z; width : Z; height : Z }.

(** An arrow: the [path] from [(from_x, line_y)] to [(to_x, line_y)] and
    the three [points] of the [polygon] that is its head, tip first. *)
Record arrow : Type := mkArrow {
  from_x : Z;
  to_x : Z;
  line_y : Z;
  head : list (Z * Z)
}.

(** One [<g>]: the box, the anchor of its centred text, the text, and
    the arrow to the next box if one is drawn. *)
Record group : Type := mkGroup {
  box : rect;
  text_at : Z * Z;
  text : string;
  next : option arrow
}.

(** [ProcessSmartArt]: [viewBox="0 0 1000 180"]. *)
Definition process_viewBox : rect := mkRect 0 0 1000 180.

Definition process_steps : list string :=
  [ "Identify interventions";
    "Develop thematic checklists with specialists";
    "Orient staff";
    "Create FM plan";
    "Conduct visits";
    "Analyse findings & track actions";
    "Disseminate results in FM/AAP forums" ]%string.

Definition process_group (t : string) (i : nat) : group :=
  let i := Z.of_nat i in
  mkGroup (mkRect (10 + i * 140) 30 130 90)
          (10 + i * 140 + 65, 75)
          t
          (if i <? 6 then
             Some (mkArrow (10 + i * 140 + 130) (10 + i * 140 + 140) 75
                           [ (10 + i * 140 + 140, 75);
                             (10 + i * 140 + 130, 69);
                             (10 + i * 140 + 130, 81) ])
           else None).

Definition process_groups (steps : list string) : list group :=
  mapi process_group steps.

Definition ProcessSmartArt : list group := process_groups process_steps.

(** [SmartArtSpine]: [viewBox="0 0 1200 220"]. *)
Definition spine_viewBox : rect := mkRect 0 0 1200 220.

Definition spine_boxes : list (Z * string) :=
  [ (20, "Purpose"); (320, "Method"); (620, "Instrument"); (920, "Output") ]%string.

Definition spine_group (b : Z * string) (i : nat) : group :=
  let bx := fst b in
  mkGroup (mkRect bx 40 240 100)
          (bx + 120, 100)
          (snd b)
          (if Z.of_nat i <? 3 then
             Some (mkArrow (bx + 240) (bx + 280) 90
                           [ (bx + 280, 90); (bx + 270, 82); (bx + 270, 98) ])
           else None).

Definition spine_groups (boxes : list (Z * string)) : list group :=
  mapi spine_group boxes.

Definition SmartArtSpine : list group := spine_groups spine_boxes.

Definition right_edge (r : rect) : Z := x r + width r.
Definition bottom_edge (r : rect) : Z := y r + height r.

(** [inner] lies within [outer]. *)
Definition inside (outer inner : rect) : Prop :=
  x outer <= x inner /\ right_edge inner <= right_edge outer /\
  y outer <= y inner /\ bottom_edge inner <= bottom_edge outer.

(** A point lies within a rectangle. *)
Definition covers (r : rect) (pt : Z * Z) : Prop :=
  x r <= fst pt <= right_edge r /\ y r <= snd pt <= bottom_edge r.

End SmartArt.

(** * Properties of the deck shell *)

Section DeckProperties.

Import Deck.

Variable total : Z.
Hypothesis total_pos : 1 <= total.

Lemma go_in_range (d i : Z) : in_range total (go total d i).
Proof. unfold in_range, go. lia. Qed.

Lemma go_is_clamp (d i : Z) : go total d i = clamp (i + d) 0 (total - 1).
Proof.
  unfold go, clamp.
  destruct (Z.ltb_spec (i + d) 0); [lia|].
  destruct (Z.ltb_spec (total - 1) (i + d)); lia.
Qed.

Lemma steps_in_range (ds : list Z) :
  forall i, in_range total i -> in_range total (steps total ds i).
Proof.
  induction ds as [|d ds IH]; intros i Hi; simpl; [exact Hi|].
  apply IH, go_in_range.
Qed.

Lemma go_up_iter (n : nat) :
  Nat.iter n (go total 1) 0 = Z.min (Z.of_nat n) (total - 1).
Proof.
  induction n as [|n IH]; [simpl; lia|].
  rewrite Nat.iter_succ, IH. unfold go. lia.
Qed.

Lemma go_down_iter (n : nat) (d : Z) :
  d <= 0 -> Nat.iter n (go total d) 0 = 0.
Proof.
  intros Hd. induction n as [|n IH]; [reflexivity|].
  rewrite Nat.iter_succ, IH. unfold go. lia.
Qed.

Lemma onKey_in_range (k : string) (i : Z) :
  in_range total i -> in_range total (onKey total k i).
Proof.
  intros Hi. unfold onKey.
  destruct (String.eqb k "ArrowRight"), (String.eqb k "ArrowLeft");
    auto using go_in_range.
Qed.

Lemma onKey_other (k : string) (i : Z) :
  k <> "ArrowRight"%string -> k <> "ArrowLeft"%string -> onKey total k i = i.
Proof.
  intros HR HL. unfold onKey.
  apply String.eqb_neq in HR, HL. now rewrite HR, HL.
Qed.

Lemma apply_request_in_range (r : option Z) (i : Z) :
  in_range total i -> in_range total (apply_request total r i).
Proof. destruct r; simpl; auto using go_in_range. Qed.

Lemma setIdx_mounted (id : nat) (i : Z) (f : Z -> Z) (l : list nat) (n : nat) :
  setIdx id f (mkPage (Some (id, i)) l n) = mkPage (Some (id, f i)) l n.
Proof. unfold setIdx; simpl. now rewrite Nat.eqb_refl. Qed.

Lemma page_ok_initial : page_ok total initial.
Proof. reflexivity. Qed.

Lemma page_ok_step (e : event) (p : page) :
  page_ok total p -> page_ok total (step total e p).
Proof.
  destruct p as [[[id i]|] l n]; unfold page_ok; simpl.
  - intros (-> & Hn & Hi).
    destruct e; simpl; rewrite ?setIdx_mounted; simpl; auto.
    + rewrite Nat.eqb_refl. reflexivity.
    + auto using onKey_in_range.
    + auto using apply_request_in_range.
    + auto using apply_request_in_range.
    + destruct (Z.ltb_spec (Z.of_nat i0) total);
        rewrite ?setIdx_mounted; simpl; auto.
      repeat split; auto; unfold in_range; lia.
  - intros ->.
    destruct e; simpl; auto.
    repeat split; auto; unfold in_range; lia.
Qed.

Lemma page_ok_run (es : list event) :
  forall p, page_ok total p -> page_ok total (run total es p).
Proof.
  induction es as [|e es IH]; intros p Hp; simpl; auto using page_ok_step.
Qed.

Lemma reachable_ok (p : page) : reachable total p -> page_ok total p.
Proof. intros [es ->]. apply page_ok_run, page_ok_initial. Qed.

(** The shape of a reachable page with a mounted deck. *)
Lemma reachable_mounted (p : page) (i : Z) :
  reachable total p -> current p = Some i ->
  exists id, p = mkPage (Some (id, i)) [id] (fresh p) /\ in_range total i.
Proof.
  intros Hr Hc. apply reachable_ok in Hr.
  destruct p as [[[id j]|] l n]; unfold page_ok, current in *; simpl in *;
    [|discriminate].
  destruct Hr as (-> & _ & Hj). injection Hc as ->. eauto.
Qed.

Lemma reachable_unmounted (p : page) :
  reachable total p -> current p = None -> p = mkPage None [] (fresh p).
Proof.
  intros Hr Hc. apply reachable_ok in Hr.
  destruct p as [[[id j]|] l n]; unfold page_ok, current in *; simpl in *;
    [discriminate|].
  now subst.
Qed.

(** C1.  [go(d)] sets the index to [clamp(idx + d, 0, total-1)]; a step
    outward from either end changes nothing, however often it is
    repeated; along every sequence of steps from a valid index the index
    stays within [0, total-1]; [total] steps of [+1] from index 0 end at
    [total-1]. *)
Theorem go_clamps_and_saturates :
  (forall d i, in_range total i ->
     go total d i = clamp (i + d) 0 (total - 1)) /\
  (forall d n, d <= 0 -> Nat.iter (S n) (go total d) 0 = 0) /\
  (forall d n, 0 <= d ->
     Nat.iter (S n) (go total d) (total - 1) = total - 1) /\
  (forall ds i k, in_range total i ->
     in_range total (steps total (firstn k ds) i)) /\
  Nat.iter (Z.to_nat total) (go total 1) 0 = total - 1.
Proof.
  repeat split.
  - intros d i _. apply go_is_clamp.
  - intros d n Hd. now apply go_down_iter.
  - intros d n Hd. induction n as [|n IH].
    + simpl. unfold go. lia.
    + rewrite Nat.iter_succ, IH. unfold go. lia.
  - apply steps_in_range; assumption.
  - apply steps_in_range; assumption.
  - rewrite go_up_iter. lia.
Qed.

(** C8.  In every page reached by mounting, unmounting, key presses and
    clicks, [window] carries exactly one [keydown] listener while the
    deck is mounted, the mounted instance's own, and none otherwise, also
    after a remount; ArrowRight runs [go(1)], ArrowLeft runs [go(-1)],
    any other key changes nothing, and with no deck mounted a key press
    changes nothing. *)
Theorem keyboard_binding (p : page) (Hp : reachable total p) :
  listeners p =
    match inst p with Some (id, _) => [id] | None => [] end /\
  (forall i, current p = Some i ->
     current (step total (KeyDown "ArrowRight") p) = Some (go total 1 i) /\
     current (step total (KeyDown "ArrowLeft") p) = Some (go total (-1) i) /\
     (forall k, k <> "ArrowRight"%string -> k <> "ArrowLeft"%string ->
        step total (KeyDown k) p = p) /\
     listeners (step total Unmount p) = [] /\
     (forall k, step total (KeyDown k) (step total Unmount p)
                = step total Unmount p) /\
     List.length (listeners (step total Mount (step total Unmount p))) = 1%nat) /\
  (current p = None ->
     (forall k, step total (KeyDown k) p = p) /\
     List.length (listeners (step total Mount p)) = 1%nat /\
     current (step total Mount p) = Some 0).
Proof.
  split; [|split].
  - pose proof (reachable_ok p Hp) as Hok.
    destruct p as [[[id j]|] l n]; unfold page_ok in Hok; simpl in *; tauto.
  - intros i Hc.
    destruct (reachable_mounted p i Hp Hc) as (id & -> & Hi).
    simpl. rewrite !setIdx_mounted, Nat.eqb_refl. simpl.
    repeat split.
    intros k HR HL. now rewrite setIdx_mounted, onKey_other.
  - intros Hc. rewrite (reachable_unmounted p Hp Hc). simpl. auto.
Qed.

(** C10.  Whenever the deck is shown, its index is within range, Prev is
    disabled exactly at index 0 and Next exactly at index [total-1]; a
    click on an enabled button asks for a step that stays within range,
    so [go] does not clamp it; a click on a disabled button asks for
    nothing and leaves the page as it is; the arrow keys do run [go] at
    the ends, where it clamps back to the same index. *)
Theorem buttons_disabled_at_ends (p : page) (i : Z)
  (Hp : reachable total p) (Hi : current p = Some i) :
  in_range total i /\
  (prev_disabled i = true <-> i = 0) /\
  (next_disabled total i = true <-> i = total - 1) /\
  (forall d, prev_request i = Some d ->
     d = -1 /\ in_range total (i + d) /\
     current (step total ClickPrev p) = Some (i + d)) /\
  (forall d, next_request total i = Some d ->
     d = 1 /\ in_range total (i + d) /\
     current (step total ClickNext p) = Some (i + d)) /\
  (i = 0 -> prev_request i = None /\ step total ClickPrev p = p) /\
  (i = total - 1 ->
     next_request total i = None /\ step total ClickNext p = p) /\
  (i = 0 -> step total (KeyDown "ArrowLeft") p = p /\ go total (-1) i = i) /\
  (i = total - 1 ->
     step total (KeyDown "ArrowRight") p = p /\ go total 1 i = i).
Proof.
  destruct (reachable_mounted p i Hp Hi) as (id & -> & Hr).
  unfold in_range in Hr.
  simpl. rewrite !setIdx_mounted.
  unfold prev_request, next_request, prev_disabled, next_disabled, onKey.
  simpl.
  split; [exact Hr|].
  split; [apply Z.eqb_eq|].
  split; [apply Z.eqb_eq|].
  split; [|split; [|split; [|split; [|split]]]].
  - intros d. destruct (Z.eqb_spec i 0); [discriminate|].
    intros [= <-]. simpl. unfold in_range, go, current. simpl.
    repeat split; try lia. f_equal. lia.
  - intros d. destruct (Z.eqb_spec i (total - 1)); [discriminate|].
    intros [= <-]. simpl. unfold in_range, go, current. simpl.
    repeat split; try lia. f_equal. lia.
  - intros ->. simpl. auto.
  - intros ->. rewrite Z.eqb_refl. simpl. auto.
  - intros ->. unfold go.
    replace (Z.max 0 (Z.min (total - 1) (0 + -1))) with 0 by lia.
    auto.
  - intros ->. unfold go.
    replace (Z.max 0 (Z.min (total - 1) (total - 1 + 1))) with (total - 1)
      by lia.
    auto.
Qed.

End DeckProperties.

(** C1 at the deck's own length. *)
Lemma go_clamps_and_saturates_witness :
  1 <= JumpGrid.total /\
  Nat.iter (Z.to_nat JumpGrid.total) (Deck.go JumpGrid.total 1) 0
  = JumpGrid.total - 1.
Proof.
  assert (H : 1 <= JumpGrid.total) by (vm_compute; discriminate).
  split; [exact H|].
  exact (proj2 (proj2 (proj2 (proj2
           (go_clamps_and_saturates JumpGrid.total H))))).
Defined.

(** C8 on the deck, after mounting and one press of ArrowRight. *)
Lemma keyboard_binding_witness :
  let p := Deck.run JumpGrid.total [Deck.Mount; Deck.KeyDown "ArrowRight"]
                    Deck.initial in
  1 <= JumpGrid.total /\ Deck.reachable JumpGrid.total p /\
  Deck.listeners p = [0%nat] /\
  Deck.current (Deck.step JumpGrid.total (Deck.KeyDown "ArrowLeft") p)
  = Some 0.
Proof.
  intros p.
  assert (H : 1 <= JumpGrid.total) by (vm_compute; discriminate).
  assert (Hp : Deck.reachable JumpGrid.total p) by (eexists; reflexivity).
  split; [exact H|]. split; [exact Hp|].
  destruct (keyboard_binding JumpGrid.total H p Hp) as (Hl & Hk & _).
  split; [exact Hl|].
  exact (proj1 (proj2 (Hk 1 eq_refl))).
Defined.

(** C10 on the deck, on its first slide. *)
Lemma buttons_disabled_at_ends_witness :
  let p := Deck.run JumpGrid.total [Deck.Mount] Deck.initial in
  1 <= JumpGrid.total /\ Deck.reachable JumpGrid.total p /\
  Deck.current p = Some 0 /\
  Deck.prev_request 0 = None /\
  Deck.step JumpGrid.total Deck.ClickPrev p = p.
Proof.
  intros p.
  assert (H : 1 <= JumpGrid.total) by (vm_compute; discriminate).
  assert (Hp : Deck.reachable JumpGrid.total p) by (eexists; reflexivity).
  split; [exact H|]. split; [exact Hp|]. split; [reflexivity|].
  destruct (buttons_disabled_at_ends JumpGrid.total H p 0 Hp eq_refl)
    as (_ & _ & _ & _ & _ & H0 & _).
  exact (H0 eq_refl).
Defined.

(** * Properties of the one-minute timer *)

Section TimerProperties.

Import OneMinuteTimer.

Lemma shift_0 (st : state) : shift 0 st = st.
Proof. destruct st. unfold shift. simpl. now rewrite Z.add_0_r. Qed.

Lemma shift_shift (a b : Z) (st : state) :
  shift b (shift a st) = shift (a + b) st.
Proof. unfold shift. simpl. now rewrite Z.add_assoc. Qed.

Lemma elapse_add (a b : nat) (st : state) :
  elapse (a + b) st = elapse b (elapse a st).
Proof. unfold elapse. rewrite Nat.add_comm. apply Nat.iter_add. Qed.

Lemma elapse_succ (n : nat) (st : state) :
  elapse (S n) st = tick_ms (elapse n st).
Proof. reflexivity. Qed.

(** With nothing queued a millisecond only moves the clock. *)
Lemma tick_idle (st : state) : queue st = [] -> tick_ms st = shift 1 st.
Proof. destruct st; simpl. intros ->. reflexivity. Qed.

Lemma elapse_idle (n : nat) (st : state) :
  queue st = [] -> elapse n st = shift (Z.of_nat n) st.
Proof.
  intros H. induction n as [|n IH].
  - simpl. now rewrite shift_0.
  - rewrite elapse_succ, IH. rewrite tick_idle by exact H.
    rewrite shift_shift. f_equal. lia.
Qed.

(** Nor does anything happen while the only timeout is not yet due. *)
Lemma tick_quiet (st : state) (id : nat) (due : Z) :
  queue st = [(id, due)] -> now st + 1 < due -> tick_ms st = shift 1 st.
Proof.
  destruct st as [s r c m t n q f]; simpl. intros -> Hd.
  unfold tick_ms. simpl.
  destruct (Z.leb_spec due (t + 1)); [lia|]. reflexivity.
Qed.

Lemma elapse_quiet (n : nat) (st : state) (id : nat) (due : Z) :
  queue st = [(id, due)] -> now st + Z.of_nat n < due ->
  elapse n st = shift (Z.of_nat n) st.
Proof.
  intros H. induction n as [|n IH]; intros Hd.
  - simpl. now rewrite shift_0.
  - rewrite elapse_succ, IH by lia.
    rewrite (tick_quiet _ id due); [|exact H|simpl; lia].
    rewrite shift_shift. f_equal. lia.
Qed.

(** The millisecond at which the timeout falls due: the callback runs
    once, and the effect arms the next timeout unless zero is reached. *)
Lemma tick_fire (s : Z) (id : nat) (t : Z) (n f : nat) :
  tick_ms (armed s id (t + 1) t n f) =
  if s - 1 =? 0 then mkState (s - 1) true None true (t + 1) n [] (S f)
  else armed (s - 1) n (t + 1 + 1000) (t + 1) (S n) (S f).
Proof.
  unfold tick_ms, armed. simpl. rewrite Z.leb_refl. simpl.
  unfold pending, clearTimeout. simpl. rewrite Nat.eqb_refl. simpl.
  unfold callback, commit. simpl.
  destruct (Z.eqb_spec (s - 1) s); [lia|]. simpl.
  unfold effect, run_cleanup, clearTimeout. simpl.
  destruct (s - 1 =? 0); reflexivity.
Qed.

Lemma timer_ok_cases (st : state) :
  timer_ok st ->
  0 <= seconds st <= 60 /\
  ((cleanup st = None /\ queue st = [] /\
    mounted st && running st && negb (seconds st =? 0) = false) \/
   (exists id due,
      st = armed (seconds st) id due (now st) (next_id st) (fired st) /\
      seconds st <> 0 /\ now st < due <= now st + 1000)).
Proof.
  intros [Hs H]. split; [exact Hs|].
  destruct (mounted st && running st && negb (seconds st =? 0)) eqn:E.
  - right. destruct H as (id & due & Hc & Hq & Hd). exists id, due.
    apply andb_prop in E as [E E3]. apply andb_prop in E as [E1 E2].
    apply negb_true_iff, Z.eqb_neq in E3.
    destruct st; simpl in *; subst. repeat split; auto; lia.
  - left. tauto.
Qed.

Lemma timer_ok_idle (s : Z) (r m : bool) (t : Z) (n f : nat) :
  0 <= s <= 60 -> m && r && negb (s =? 0) = false ->
  timer_ok (mkState s r None m t n [] f).
Proof. intros Hs E. split; simpl; [exact Hs|]. now rewrite E. Qed.

Lemma timer_ok_armed (s : Z) (id : nat) (due t : Z) (n f : nat) :
  0 <= s <= 60 -> s <> 0 -> t < due <= t + 1000 ->
  timer_ok (armed s id due t n f).
Proof.
  intros Hs H0 Hd. split; simpl; [exact Hs|].
  apply Z.eqb_neq in H0. rewrite H0. simpl. eauto.
Qed.

Lemma timer_ok_mount (t0 : Z) (id0 : nat) : timer_ok (mount t0 id0).
Proof.
  unfold mount, effect, with_cleanup. simpl.
  apply timer_ok_idle; [lia|reflexivity].
Qed.

(** A commit that changes a dependency, from a state whose queue holds
    at most the timeout of the last effect. *)
Lemma commit_idle (s s0 : Z) (r r0 : bool) (t : Z) (n f : nat) :
  (s =? s0) && Bool.eqb r r0 = false ->
  commit s r (mkState s0 r0 None true t n [] f) =
  if r && negb (s =? 0) then armed s n (t + 1000) t (S n) f
  else mkState s r None true t n [] f.
Proof.
  intros E. unfold commit. simpl. rewrite E.
  unfold effect, run_cleanup. simpl.
  destruct r; simpl; [|reflexivity].
  destruct (s =? 0); reflexivity.
Qed.

Lemma commit_armed (s s0 : Z) (r : bool) (id : nat) (due t : Z) (n f : nat) :
  (s =? s0) && Bool.eqb r true = false ->
  commit s r (armed s0 id due t n f) =
  if r && negb (s =? 0) then armed s n (t + 1000) t (S n) f
  else mkState s r None true t n [] f.
Proof.
  intros E. unfold commit, armed. simpl. rewrite E.
  unfold effect, run_cleanup, clearTimeout. simpl. rewrite Nat.eqb_refl. simpl.
  destruct r; simpl; [|reflexivity].
  destruct (s =? 0); reflexivity.
Qed.

Lemma commit_unmounted (s : Z) (r : bool) (st : state) :
  mounted st = false -> commit s r st = st.
Proof. intros H. unfold commit. now rewrite H. Qed.

Lemma commit_ok (s : Z) (r : bool) (st : state) :
  timer_ok st -> 0 <= s <= 60 -> timer_ok (commit s r st).
Proof.
  intros Hok Hs.
  destruct (mounted st) eqn:Hm; [|now rewrite commit_unmounted].
  destruct ((s =? seconds st) && Bool.eqb r (running st)) eqn:E.
  { unfold commit. now rewrite Hm, E. }
  assert (Hres : forall t n f,
            timer_ok (if r && negb (s =? 0)
                      then armed s n (t + 1000) t (S n) f
                      else mkState s r None true t n [] f)).
  { intros t n f. destruct (r && negb (s =? 0)) eqn:E2.
    - apply andb_prop in E2 as [_ E2].
      apply negb_true_iff, Z.eqb_neq in E2.
      apply timer_ok_armed; lia.
    - apply timer_ok_idle; [lia|exact E2]. }
  destruct (timer_ok_cases st Hok) as (_ & [(Hc & Hq & _)|(id & due & Hst & _)]).
  - destruct st; simpl in *; subst. rewrite commit_idle by exact E. apply Hres.
  - rewrite Hst in E |- *. simpl in E. rewrite commit_armed by exact E.
    apply Hres.
Qed.

Lemma shift_ok (d : Z) (st : state) :
  queue st = [] -> timer_ok st -> timer_ok (shift d st).
Proof.
  intros Hq (Hs & H). split; [exact Hs|]. simpl.
  destruct (mounted st && running st && negb (seconds st =? 0)); [|exact H].
  destruct H as (id & due & _ & Hq' & _). congruence.
Qed.

Lemma shift_armed (d s : Z) (id : nat) (due t : Z) (n f : nat) :
  shift d (armed s id due t n f) = armed s id due (t + d) n f.
Proof. reflexivity. Qed.

Lemma tick_ok (st : state) : timer_ok st -> timer_ok (tick_ms st).
Proof.
  intros Hok.
  destruct (timer_ok_cases st Hok)
    as (Hs & [(Hc & Hq & _)|(id & due & Hst & H0 & Hd)]).
  - rewrite tick_idle by exact Hq. now apply shift_ok.
  - rewrite Hst. destruct (Z.eq_dec due (now st + 1)) as [->|Hne].
    + rewrite tick_fire. destruct (Z.eqb_spec (seconds st - 1) 0).
      * apply timer_ok_idle; [lia|]. simpl. apply Z.eqb_eq in e. now rewrite e.
      * apply timer_ok_armed; lia.
    + rewrite (tick_quiet _ id due); [|reflexivity|simpl; lia].
      rewrite shift_armed. apply timer_ok_armed; lia.
Qed.

Lemma elapse_ok (n : nat) (st : state) :
  timer_ok st -> timer_ok (elapse n st).
Proof.
  intros Hok. induction n as [|n IH]; [exact Hok|].
  rewrite elapse_succ. now apply tick_ok.
Qed.

Lemma unmount_idle (st : state) :
  timer_ok st ->
  mounted st = true ->
  unmount st =
  mkState (seconds st) (running st) None false (now st) (next_id st) []
          (fired st).
Proof.
  intros Hok Hm.
  destruct (timer_ok_cases st Hok)
    as (_ & [(Hc & Hq & _)|(id & due & Hst & _)]).
  - unfold unmount, run_cleanup. rewrite Hm, Hc. simpl. now rewrite Hq.
  - rewrite Hst. unfold unmount, run_cleanup, clearTimeout, armed. simpl.
    now rewrite Nat.eqb_refl.
Qed.

Lemma unmount_ok (st : state) : timer_ok st -> timer_ok (unmount st).
Proof.
  intros Hok. destruct (mounted st) eqn:Hm.
  - rewrite unmount_idle by assumption.
    apply timer_ok_idle; [apply Hok|reflexivity].
  - unfold unmount. now rewrite Hm.
Qed.

Lemma start_ok (st : state) : timer_ok st -> timer_ok (start st).
Proof. intros Hok. apply commit_ok; [exact Hok|apply Hok]. Qed.

Lemma pause_ok (st : state) : timer_ok st -> timer_ok (pause st).
Proof. intros Hok. apply commit_ok; [exact Hok|apply Hok]. Qed.

Lemma reset_ok (st : state) : timer_ok st -> timer_ok (reset st).
Proof. intros Hok. apply commit_ok; [exact Hok|lia]. Qed.

Create HintDb timer.
#[local] Hint Resolve timer_ok_mount start_ok pause_ok reset_ok unmount_ok
  tick_ok elapse_ok : timer.

Lemma step_ok (e : event) (st : state) :
  timer_ok st -> timer_ok (step e st).
Proof. intros Hok. destruct e; simpl; auto with timer. Qed.

Lemma run_ok (es : list event) :
  forall st, timer_ok st -> timer_ok (run es st).
Proof.
  induction es as [|e es IH]; intros st Hok; simpl; auto using step_ok.
Qed.

Lemma reachable_timer_ok (st : state) : reachable st -> timer_ok st.
Proof. intros (t0 & id0 & es & ->). apply run_ok, timer_ok_mount. Qed.

#[local] Hint Resolve step_ok run_ok reachable_timer_ok : timer.

(** One second from an armed state: the timeout falls due once. *)
Lemma second_armed (s : Z) (id : nat) (due t : Z) (n f : nat) :
  t < due <= t + 1000 ->
  elapse 1000 (armed s id due t n f) =
  if s - 1 =? 0 then mkState (s - 1) true None true (t + 1000) n [] (S f)
  else armed (s - 1) n (due + 1000) (t + 1000) (S n) (S f).
Proof.
  intros Hd.
  assert (exists k j : nat,
            (1000 = k + (1 + j))%nat /\ due = t + Z.of_nat k + 1)
    as (k & j & E & ->).
  { exists (Z.to_nat (due - t - 1)), (999 - Z.to_nat (due - t - 1))%nat. lia. }
  rewrite E, !elapse_add.
  rewrite (elapse_quiet k _ id (t + Z.of_nat k + 1));
    [|reflexivity|simpl; lia].
  rewrite shift_armed.
  change (elapse 1 ?x) with (tick_ms x).
  rewrite tick_fire.
  destruct (s - 1 =? 0).
  - rewrite elapse_idle by reflexivity. unfold shift. cbn [seconds running
      cleanup mounted now next_id queue fired].
    f_equal. lia.
  - rewrite (elapse_quiet _ _ n (t + Z.of_nat k + 1 + 1000));
      [|reflexivity|cbn [now armed]; lia].
    rewrite shift_armed. f_equal. lia.
Qed.

(** A state that is running above zero is armed. *)
Lemma running_armed (st : state) :
  timer_ok st -> mounted st = true -> running st = true -> 0 < seconds st ->
  exists id due,
    st = armed (seconds st) id due (now st) (next_id st) (fired st) /\
    (now st < due <= now st + 1000).
Proof.
  intros Hok Hm Hr Hs.
  destruct (timer_ok_cases st Hok)
    as (_ & [(_ & _ & E)|(id & due & Hst & _ & Hd)]).
  - rewrite Hm, Hr in E. simpl in E.
    apply negb_false_iff, Z.eqb_eq in E. lia.
  - eauto.
Qed.

Lemma second_running (st : state) :
  timer_ok st -> mounted st = true -> running st = true -> 0 < seconds st ->
  let st' := elapse 1000 st in
  seconds st' = seconds st - 1 /\ fired st' = S (fired st) /\
  running st' = true /\ mounted st' = true /\
  now st' = now st + 1000.
Proof.
  intros Hok Hm Hr Hs.
  destruct (running_armed st Hok Hm Hr Hs) as (id & due & Hst & Hd).
  pose proof (second_armed (seconds st) id due (now st) (next_id st)
                (fired st) Hd) as Hsec.
  rewrite <- Hst in Hsec. cbv zeta. rewrite Hsec.
  destruct (seconds st - 1 =? 0); cbn [seconds running mounted now fired armed];
    auto.
Qed.

(** [k] seconds from a state running at [k] or more. *)
Lemma seconds_running (k : nat) :
  forall st,
    timer_ok st -> mounted st = true -> running st = true ->
    Z.of_nat k <= seconds st ->
    let st' := elapse (1000 * k) st in
    seconds st' = seconds st - Z.of_nat k /\
    fired st' = (fired st + k)%nat /\
    running st' = true /\ mounted st' = true.
Proof.
  induction k as [|k IH]; intros st Hok Hm Hr Hs.
  - simpl. repeat split; auto; lia.
  - replace (1000 * S k)%nat with (1000 + 1000 * k)%nat by lia.
    rewrite elapse_add.
    destruct (second_running st Hok Hm Hr) as (H1 & H2 & H3 & H4 & _); [lia|].
    destruct (IH (elapse 1000 st)) as (K1 & K2 & K3 & K4);
      auto using elapse_ok; [lia|].
    cbv zeta. rewrite K1, K2, H1, H2. repeat split; auto; lia.
Qed.

(** What the effect and the cleanup leave alone. *)
Lemma effect_frame (st : state) :
  seconds (effect st) = seconds st /\ running (effect st) = running st /\
  mounted (effect st) = mounted st /\ fired (effect st) = fired st /\
  now (effect st) = now st.
Proof.
  unfold effect. destruct (negb (running st)); [simpl; auto|].
  destruct (seconds st =? 0); simpl; auto.
Qed.

Lemma run_cleanup_frame (st : state) :
  seconds (run_cleanup st) = seconds st /\
  running (run_cleanup st) = running st /\
  mounted (run_cleanup st) = mounted st /\
  fired (run_cleanup st) = fired st /\
  now (run_cleanup st) = now st.
Proof. unfold run_cleanup. destruct (cleanup st); simpl; auto. Qed.

(** A commit on a mounted widget leaves the cells at the values given. *)
Lemma commit_cells (s : Z) (r : bool) (st : state) :
  mounted st = true ->
  seconds (commit s r st) = s /\ running (commit s r st) = r /\
  mounted (commit s r st) = true /\ fired (commit s r st) = fired st /\
  now (commit s r st) = now st.
Proof.
  intros Hm. unfold commit. rewrite Hm.
  destruct ((s =? seconds st) && Bool.eqb r (running st)) eqn:E.
  - apply andb_prop in E as [E1 E2].
    apply Z.eqb_eq in E1. apply Bool.eqb_prop in E2. subst. auto.
  - destruct (effect_frame (run_cleanup (with_cells s r st)))
      as (-> & -> & -> & -> & ->).
    destruct (run_cleanup_frame (with_cells s r st))
      as (-> & -> & -> & -> & ->).
    simpl. auto.
Qed.

(** In a state that is well formed, a timeout is pending exactly when
    the widget is mounted and running above zero. *)
Lemma pending_iff (st : state) :
  timer_ok st ->
  (queue st <> [] <->
   mounted st = true /\ running st = true /\ seconds st <> 0).
Proof.
  intros Hok.
  destruct (timer_ok_cases st Hok)
    as (_ & [(_ & Hq & E)|(id & due & Hst & H0 & _)]).
  - rewrite Hq. split; [congruence|].
    intros (Hm & Hr & Hs). rewrite Hm, Hr in E. simpl in E.
    apply negb_false_iff, Z.eqb_eq in E. contradiction.
  - rewrite Hst. simpl. split; [auto|discriminate].
Qed.

Lemma not_pending (st : state) :
  timer_ok st ->
  mounted st = false \/ running st = false \/ seconds st = 0 ->
  queue st = [] /\ cleanup st = None.
Proof.
  intros Hok H.
  destruct (timer_ok_cases st Hok)
    as (_ & [(Hc & Hq & _)|(id & due & Hst & H0 & _)]); [auto|].
  rewrite Hst in H. simpl in H.
  destruct H as [H|[H|H]]; try discriminate. contradiction.
Qed.

(** The state after [start] on a fresh mount. *)
Lemma start_mount (t0 : Z) (id0 : nat) :
  start (mount t0 id0) = armed 60 id0 (t0 + 1000) t0 (S id0) 0.
Proof. reflexivity. Qed.

Lemma at_zero_step (f : nat) (e : event) (st : state) :
  is_reset e = false -> at_zero f st -> at_zero f (step e st).
Proof.
  destruct st as [s r c m t n q k]. unfold at_zero. simpl.
  intros He (-> & -> & -> & ->).
  destruct e; try discriminate; simpl.
  - unfold start, commit. simpl. destruct m, r; simpl; auto.
  - unfold pause, commit. simpl. destruct m, r; simpl; auto.
  - unfold unmount. simpl. destruct m; simpl; auto.
  - rewrite elapse_idle by reflexivity. simpl. auto.
Qed.

Lemma at_zero_run (f : nat) (es : list event) :
  forall st,
    forallb (fun e => negb (is_reset e)) es = true ->
    at_zero f st -> at_zero f (run es st).
Proof.
  induction es as [|e es IH]; intros st Hes Hz; simpl in *; [exact Hz|].
  apply andb_prop in Hes as [He Hes].
  apply IH; [exact Hes|]. apply at_zero_step; [|exact Hz].
  now apply negb_true_iff.
Qed.

Lemma torn_down_step (s : Z) (f : nat) (e : event) (st : state) :
  torn_down s f st -> torn_down s f (step e st).
Proof.
  destruct st as [s0 r c m t n q k]. unfold torn_down. simpl.
  intros (-> & -> & -> & ->).
  destruct e; simpl; auto.
  rewrite elapse_idle by reflexivity. simpl. auto.
Qed.

Lemma torn_down_run (s : Z) (f : nat) (es : list event) :
  forall st, torn_down s f st -> torn_down s f (run es st).
Proof.
  induction es as [|e es IH]; intros st H; simpl; auto using torn_down_step.
Qed.

Lemma unmount_torn_down (st : state) :
  timer_ok st -> torn_down (seconds st) (fired st) (unmount st).
Proof.
  intros Hok. destruct (mounted st) eqn:Hm.
  - rewrite unmount_idle by assumption. repeat split.
  - unfold unmount. rewrite Hm.
    destruct (not_pending st Hok) as [Hq _]; [auto|].
    repeat split; assumption.
Qed.

(** [k] seconds after [start] on a fresh mount, for [k] up to 60. *)
Lemma started_seconds (t0 : Z) (id0 : nat) (k : nat) :
  Z.of_nat k <= 60 ->
  let st := elapse (1000 * k) (start (mount t0 id0)) in
  seconds st = 60 - Z.of_nat k /\ running st = true /\
  mounted st = true /\ timer_ok st.
Proof.
  intros Hk.
  assert (Hok : timer_ok (start (mount t0 id0))) by auto with timer.
  destruct (seconds_running k (start (mount t0 id0)) Hok)
    as (H1 & _ & H3 & H4).
  - rewrite start_mount. reflexivity.
  - rewrite start_mount. reflexivity.
  - rewrite start_mount. exact Hk.
  - cbv zeta. rewrite H1, H3, H4.
    split; [reflexivity|]. split; [reflexivity|]. split; [reflexivity|].
    now apply elapse_ok.
Qed.

Lemma run_cons (e : event) (es : list event) (st : state) :
  run (e :: es) st = run es (step e st).
Proof. reflexivity. Qed.

Lemma run_nil (st : state) : run [] st = st.
Proof. reflexivity. Qed.

Lemma button_queue_empty (s : Z) (st : state) :
  timer_ok st -> 0 <= s <= 60 ->
  queue (commit s false st) = [] /\ cleanup (commit s false st) = None.
Proof.
  intros Hok Hs. apply not_pending; [now apply commit_ok|].
  destruct (mounted st) eqn:Hm.
  - right. left. now apply commit_cells.
  - left. now rewrite commit_unmounted.
Qed.

(** C2.  In every reachable state of a mounted timer that is running
    above zero, one second of the clock runs the timeout callback exactly
    once and takes one off [seconds], and [k] seconds take [k] off as long
    as [seconds] allows; in every reachable state a timeout is pending
    exactly when the widget is mounted and running above zero, so the
    decrement arms the next one only in that case; from a fresh mount,
    [start] and three seconds give [seconds = 57] and [running = true]. *)
Theorem tick_rule :
  (forall st, reachable st -> mounted st = true -> running st = true ->
     0 < seconds st ->
     let st' := elapse 1000 st in
     seconds st' = seconds st - 1 /\ fired st' = S (fired st) /\
     running st' = true /\
     (queue st' <> [] <-> seconds st' <> 0)) /\
  (forall st k, reachable st -> mounted st = true -> running st = true ->
     Z.of_nat k <= seconds st ->
     let st' := elapse (1000 * k) st in
     seconds st' = seconds st - Z.of_nat k /\
     fired st' = (fired st + k)%nat /\ running st' = true) /\
  (forall st, reachable st ->
     (queue st <> [] <->
      mounted st = true /\ running st = true /\ seconds st <> 0)) /\
  (forall t0 id0,
     let st := run [Start; Elapse 3000] (mount t0 id0) in
     seconds st = 57 /\ running st = true).
Proof.
  split; [|split; [|split]].
  - intros st Hst Hm Hr Hs.
    pose proof (reachable_timer_ok st Hst) as Hok.
    destruct (second_running st Hok Hm Hr Hs) as (H1 & H2 & H3 & H4 & _).
    cbv zeta. repeat split; auto.
    + intros Hq. apply (pending_iff _ (elapse_ok 1000 st Hok)) in Hq. tauto.
    + intros Hz. apply (pending_iff _ (elapse_ok 1000 st Hok)). auto.
  - intros st k Hst Hm Hr Hk.
    pose proof (reachable_timer_ok st Hst) as Hok.
    destruct (seconds_running k st Hok Hm Hr Hk) as (H1 & H2 & H3 & _).
    cbv zeta. auto.
  - intros st Hst. apply pending_iff. auto with timer.
  - intros t0 id0. cbv zeta.
    rewrite !run_cons, run_nil.
    change (step (Elapse 3000) ?x) with (elapse (1000 * 3) x).
    change (step Start ?x) with (start x).
    destruct (started_seconds t0 id0 3) as (H1 & H2 & _); [lia|].
    rewrite H1, H2. split; reflexivity.
Qed.

(** C3.  In every reachable state [0 <= seconds <= 60]; once [seconds]
    is 0 no timeout is pending, and whatever follows short of a reset
    (time passing, start, pause, unmount) leaves [seconds] at 0, runs no
    callback and queues nothing. *)
Theorem countdown_bounds (st : state) (Hst : reachable st) :
  0 <= seconds st <= 60 /\
  (seconds st = 0 ->
   queue st = [] /\
   forall es, forallb (fun e => negb (is_reset e)) es = true ->
     let st' := run es st in
     seconds st' = 0 /\ fired st' = fired st /\ queue st' = []).
Proof.
  pose proof (reachable_timer_ok st Hst) as Hok.
  split; [apply Hok|]. intros Hz.
  destruct (not_pending st Hok) as [Hq Hc]; [auto|].
  split; [exact Hq|]. intros es Hes.
  destruct (at_zero_run (fired st) es st Hes) as (H1 & _ & H3 & H4).
  - repeat split; assumption.
  - cbv zeta. auto.
Qed.

(** C4.  [reset] on a mounted timer, whatever its state, leaves
    [seconds = 60] and [running = false]; from a reachable state it also
    leaves no timeout pending. *)
Theorem reset_yields_initial (st : state) (Hm : mounted st = true) :
  seconds (reset st) = 60 /\ running (reset st) = false /\
  (reachable st -> queue (reset st) = [] /\ cleanup (reset st) = None).
Proof.
  destruct (commit_cells 60 false st Hm) as (H1 & H2 & _).
  repeat split; try assumption;
    apply button_queue_empty; auto with timer; lia.
Qed.

(** C5.  [pause] on a mounted timer sets [running = false] and keeps
    [seconds]; while paused, time passing changes nothing; a later
    [start] sets [running = true] with the kept value, and the countdown
    goes on from there.  From a fresh mount: start, two seconds, pause,
    any wait, start gives 58, and one more second gives 57. *)
Theorem pause_preserves_remaining :
  (forall st, mounted st = true ->
     running (pause st) = false /\ seconds (pause st) = seconds st) /\
  (forall st n, reachable st -> mounted st = true ->
     let paused := elapse n (pause st) in
     let resumed := start paused in
     seconds paused = seconds st /\ running paused = false /\
     fired paused = fired st /\
     seconds resumed = seconds st /\ running resumed = true /\
     (0 < seconds st -> seconds (elapse 1000 resumed) = seconds st - 1)) /\
  (forall t0 id0 n,
     let st := run [Start; Elapse 2000; Pause; Elapse n; Start]
                   (mount t0 id0) in
     seconds st = 58 /\ running st = true /\
     seconds (elapse 1000 st) = 57).
Proof.
  assert (P1 : forall st, mounted st = true ->
                 running (pause st) = false /\ seconds (pause st) = seconds st).
  { intros st Hm. destruct (commit_cells (seconds st) false st Hm)
      as (H1 & H2 & _). auto. }
  assert (P2 : forall st n, timer_ok st -> mounted st = true ->
     let paused := elapse n (pause st) in
     let resumed := start paused in
     seconds paused = seconds st /\ running paused = false /\
     fired paused = fired st /\
     seconds resumed = seconds st /\ running resumed = true /\
     (0 < seconds st -> seconds (elapse 1000 resumed) = seconds st - 1)).
  { intros st n Hok Hm paused resumed.
    destruct (commit_cells (seconds st) false st Hm)
      as (H1 & H2 & H3 & H4 & _).
    destruct (button_queue_empty (seconds st) st Hok) as [Hq _];
      [apply Hok|].
    assert (Hp : paused = shift (Z.of_nat n) (pause st)).
    { subst paused. now apply elapse_idle. }
    assert (Hpm : mounted paused = true) by (rewrite Hp; exact H3).
    assert (Hps : seconds paused = seconds st) by (rewrite Hp; exact H1).
    assert (Hpok : timer_ok paused).
    { subst paused. auto with timer. }
    destruct (commit_cells (seconds paused) true paused Hpm)
      as (K1 & K2 & K3 & _).
    fold (start paused) in K1, K2, K3. fold resumed in K1, K2, K3.
    repeat split; try (rewrite Hp; assumption); try congruence.
    intros Hs.
    destruct (second_running resumed) as (L1 & _); try assumption.
    - subst resumed. auto with timer.
    - lia.
    - cbv zeta in L1. lia. }
  split; [exact P1|]. split.
  - intros st n Hst Hm. apply P2; auto with timer.
  - intros t0 id0 n. cbv zeta.
    rewrite !run_cons, run_nil.
    change (step (Elapse 2000) ?x) with (elapse (1000 * 2) x).
    change (step Start (mount t0 id0)) with (start (mount t0 id0)).
    destruct (started_seconds t0 id0 2) as (H1 & _ & H3 & H4); [lia|].
    set (st2 := elapse (1000 * 2) (start (mount t0 id0))) in *.
    change (step Start (step (Elapse n) (step Pause st2)))
      with (start (elapse n (pause st2))).
    destruct (P2 st2 n H4 H3) as (_ & _ & _ & K4 & K5 & K6).
    rewrite K4, K5, K6, H1 by lia. repeat split; reflexivity.
Qed.

(** C7.  From every reachable state, unmounting, pausing and resetting
    each leave the timeout queue empty, and so does having reached zero
    or not running; and after an unmount, whatever follows, no callback
    runs, nothing is queued and [seconds] stays as it was. *)
Theorem no_dangling_tick (st : state) (Hst : reachable st) :
  queue (unmount st) = [] /\ queue (pause st) = [] /\
  queue (reset st) = [] /\
  (seconds st = 0 -> queue st = []) /\
  (running st = false -> queue st = []) /\
  (forall es,
     let st' := run es (unmount st) in
     fired st' = fired st /\ queue st' = [] /\
     seconds st' = seconds st /\ mounted st' = false).
Proof.
  pose proof (reachable_timer_ok st Hst) as Hok.
  pose proof (unmount_torn_down st Hok) as Hu.
  split; [apply Hu|].
  split; [apply button_queue_empty; [exact Hok|apply Hok]|].
  split; [apply button_queue_empty; [exact Hok|lia]|].
  split; [intros Hz; apply not_pending; auto|].
  split; [intros Hr; apply not_pending; auto|].
  intros es. cbv zeta.
  destruct (torn_down_run _ _ es _ Hu) as (H1 & H2 & H3 & H4). auto.
Qed.

End TimerProperties.

(** C2 on a timer started on a fresh mount. *)
Lemma tick_rule_witness :
  let st := OneMinuteTimer.run [OneMinuteTimer.Start]
                               (OneMinuteTimer.mount 0 1) in
  OneMinuteTimer.reachable st /\
  OneMinuteTimer.mounted st = true /\ OneMinuteTimer.running st = true /\
  0 < OneMinuteTimer.seconds st /\
  OneMinuteTimer.seconds (OneMinuteTimer.elapse 1000 st) = 59.
Proof.
  intros st.
  assert (Hst : OneMinuteTimer.reachable st)
    by (exists 0, 1%nat, [OneMinuteTimer.Start]; reflexivity).
  assert (Hs : 0 < OneMinuteTimer.seconds st) by reflexivity.
  split; [exact Hst|]. split; [reflexivity|]. split; [reflexivity|].
  split; [exact Hs|].
  exact (proj1 (proj1 tick_rule st Hst eq_refl eq_refl Hs)).
Defined.

(** C3 on a timer that has run down. *)
Lemma countdown_bounds_witness :
  let st := OneMinuteTimer.run
              [OneMinuteTimer.Start; OneMinuteTimer.Elapse (1000 * 60)]
              (OneMinuteTimer.mount 0 1) in
  let st' := OneMinuteTimer.run
               [OneMinuteTimer.Elapse 5000; OneMinuteTimer.Pause;
                OneMinuteTimer.Start; OneMinuteTimer.Elapse 5000] st in
  OneMinuteTimer.reachable st /\ OneMinuteTimer.seconds st = 0 /\
  OneMinuteTimer.seconds st' = 0 /\
  OneMinuteTimer.fired st' = OneMinuteTimer.fired st /\
  OneMinuteTimer.queue st' = [].
Proof.
  intros st st'.
  assert (Hst : OneMinuteTimer.reachable st)
    by (exists 0, 1%nat,
          [OneMinuteTimer.Start; OneMinuteTimer.Elapse (1000 * 60)];
        reflexivity).
  assert (Hz : OneMinuteTimer.seconds st = 0) by (vm_compute; reflexivity).
  split; [exact Hst|]. split; [exact Hz|].
  exact (proj2 (proj2 (countdown_bounds st Hst) Hz)
           [OneMinuteTimer.Elapse 5000; OneMinuteTimer.Pause;
            OneMinuteTimer.Start; OneMinuteTimer.Elapse 5000] eq_refl).
Defined.

(** C4 on a timer reset in the middle of a second. *)
Lemma reset_yields_initial_witness :
  let st := OneMinuteTimer.run
              [OneMinuteTimer.Start; OneMinuteTimer.Elapse 1500]
              (OneMinuteTimer.mount 0 1) in
  OneMinuteTimer.mounted st = true /\ OneMinuteTimer.reachable st /\
  OneMinuteTimer.seconds (OneMinuteTimer.reset st) = 60 /\
  OneMinuteTimer.running (OneMinuteTimer.reset st) = false /\
  OneMinuteTimer.queue (OneMinuteTimer.reset st) = [].
Proof.
  intros st.
  assert (Hm : OneMinuteTimer.mounted st = true) by (vm_compute; reflexivity).
  assert (Hst : OneMinuteTimer.reachable st)
    by (exists 0, 1%nat,
          [OneMinuteTimer.Start; OneMinuteTimer.Elapse 1500]; reflexivity).
  destruct (reset_yields_initial st Hm) as (H1 & H2 & H3).
  split; [exact Hm|]. split; [exact Hst|]. split; [exact H1|].
  split; [exact H2|]. exact (proj1 (H3 Hst)).
Defined.

(** C5 on a timer paused after two seconds and resumed five seconds
    later. *)
Lemma pause_preserves_remaining_witness :
  let st := OneMinuteTimer.run
              [OneMinuteTimer.Start; OneMinuteTimer.Elapse 2000]
              (OneMinuteTimer.mount 0 1) in
  let resumed :=
    OneMinuteTimer.start
      (OneMinuteTimer.elapse 5000 (OneMinuteTimer.pause st)) in
  OneMinuteTimer.reachable st /\ OneMinuteTimer.mounted st = true /\
  0 < OneMinuteTimer.seconds st /\
  OneMinuteTimer.seconds resumed = OneMinuteTimer.seconds st /\
  OneMinuteTimer.running resumed = true /\
  OneMinuteTimer.seconds (OneMinuteTimer.elapse 1000 resumed)
  = OneMinuteTimer.seconds st - 1.
Proof.
  intros st resumed.
  assert (Hst : OneMinuteTimer.reachable st)
    by (exists 0, 1%nat,
          [OneMinuteTimer.Start; OneMinuteTimer.Elapse 2000]; reflexivity).
  assert (Hm : OneMinuteTimer.mounted st = true) by (vm_compute; reflexivity).
  assert (Hs : 0 < OneMinuteTimer.seconds st) by (vm_compute; reflexivity).
  destruct (proj1 (proj2 pause_preserves_remaining) st 5000%nat Hst Hm)
    as (_ & _ & _ & H4 & H5 & H6).
  split; [exact Hst|]. split; [exact Hm|]. split; [exact Hs|].
  split; [exact H4|]. split; [exact H5|]. exact (H6 Hs).
Defined.

(** C7 on a timer unmounted in the middle of a second. *)
Lemma no_dangling_tick_witness :
  let st := OneMinuteTimer.run
              [OneMinuteTimer.Start; OneMinuteTimer.Elapse 1500]
              (OneMinuteTimer.mount 0 1) in
  let st' := OneMinuteTimer.run
               [OneMinuteTimer.Elapse 5000; OneMinuteTimer.Start;
                OneMinuteTimer.Elapse 5000]
               (OneMinuteTimer.unmount st) in
  OneMinuteTimer.reachable st /\
  OneMinuteTimer.queue (OneMinuteTimer.unmount st) = [] /\
  OneMinuteTimer.fired st' = OneMinuteTimer.fired st /\
  OneMinuteTimer.queue st' = [].
Proof.
  intros st st'.
  assert (Hst : OneMinuteTimer.reachable st)
    by (exists 0, 1%nat,
          [OneMinuteTimer.Start; OneMinuteTimer.Elapse 1500]; reflexivity).
  destruct (no_dangling_tick st Hst) as (H1 & _ & _ & _ & _ & H6).
  destruct (H6 [OneMinuteTimer.Elapse 5000; OneMinuteTimer.Start;
                OneMinuteTimer.Elapse 5000]) as (K1 & K2 & _).
  split; [exact Hst|]. split; [exact H1|]. split; [exact K1|exact K2].
Defined.

(** * Properties of the rendered texts *)

Section ReadoutProperties.

Import OneMinuteTimer.

Lemma repeat_one_length (n : nat) (c : ascii) :
  String.length (repeat_string n (String c EmptyString)) = n.
Proof. induction n as [|n IH]; simpl; auto. Qed.

Lemma substring_all (s : string) : substring 0 (String.length s) s = s.
Proof. induction s as [|c s IH]; simpl; [reflexivity|]. now rewrite IH. Qed.

(** Padding with a one-character filler puts the missing number of
    copies in front. *)
Lemma padStart_one (w : nat) (c : ascii) (s : string) :
  padStart w (String c EmptyString) s =
  (repeat_string (w - String.length s) (String c EmptyString) ++ s)%string.
Proof.
  unfold padStart.
  destruct (Nat.leb_spec w (String.length s)) as [H|H].
  - replace (w - String.length s)%nat with 0%nat by lia. reflexivity.
  - cbn [String.length Nat.eqb].
    set (fill := (w - String.length s)%nat).
    rewrite <- (repeat_one_length fill c) at 1.
    now rewrite substring_all.
Qed.

Lemma readout_zero_padded (s : Z) :
  0 <= s ->
  readout s = (zero_padded 1 (s / 60) ++ ":" ++ zero_padded 2 (s mod 60))%string.
Proof.
  intros Hs. unfold readout, zero_padded.
  rewrite Z.rem_mod_nonneg by lia.
  now rewrite !padStart_one.
Qed.

Lemma readout_table : forallb readout_checked (seq 0 61) = true.
Proof. vm_compute. reflexivity. Qed.

Lemma readout_m_ss (s : Z) : 0 <= s <= 60 -> readout s = m_ss s.
Proof.
  intros Hs.
  pose proof (proj1 (forallb_forall _ _) readout_table (Z.to_nat s)) as H.
  unfold readout_checked in H. rewrite Z2Nat.id in H by lia.
  apply String.eqb_eq, H, in_seq. lia.
Qed.

(** C6.  For [seconds] from 0 to 60 the read-out is [seconds / 60]
    zero-padded to width 1, a colon, and [seconds mod 60] zero-padded to
    width 2, that is, one minutes digit, a colon and two seconds digits;
    60 reads "1:00" and 5 reads "0:05". *)
Theorem readout_format (s : Z) (Hs : 0 <= s <= 60) :
  readout s
  = (zero_padded 1 (s / 60) ++ ":" ++ zero_padded 2 (s mod 60))%string /\
  readout s = m_ss s /\
  String.length (readout s) = 4%nat /\
  readout 60 = "1:00"%string /\ readout 5 = "0:05"%string.
Proof.
  split; [apply readout_zero_padded; lia|].
  split; [now apply readout_m_ss|].
  split; [now rewrite readout_m_ss|].
  split; reflexivity.
Qed.

End ReadoutProperties.

(** C6 at 37 seconds. *)
Lemma readout_format_witness :
  0 <= 37 <= 60 /\ OneMinuteTimer.readout 37 = "0:37"%string.
Proof.
  assert (H : 0 <= 37 <= 60) by lia.
  split; [exact H|].
  exact (proj1 (proj2 (readout_format 37 H))).
Defined.

Section JumpGridProperties.

Import JumpGrid.

Open Scope string_scope.

Lemma append_nil_r (s : string) : s ++ "" = s.
Proof. induction s as [|c s IH]; simpl; [reflexivity|]. now rewrite IH. Qed.

Lemma append_assoc (a b c : string) : (a ++ b) ++ c = a ++ (b ++ c).
Proof. induction a as [|x a IH]; simpl; [reflexivity|]. now rewrite IH. Qed.

Lemma prefix_drop (d s : string) :
  prefix d s = true -> s = d ++ drop (String.length d) s.
Proof.
  revert s. induction d as [|x d IH]; intros s H; simpl; [reflexivity|].
  destruct s as [|y s]; simpl in H; [discriminate|].
  destruct (ascii_dec x y) as [->|]; [|discriminate].
  simpl. f_equal. now apply IH.
Qed.

(** [cut] does cut at a separator. *)
Lemma cut_sound (d s a b : string) :
  cut d s = Some (a, b) -> s = a ++ d ++ b.
Proof.
  revert a. induction s as [|c s IH]; intros a; cbn [cut].
  - destruct (prefix d "") eqn:E; [|discriminate].
    intros [= <- <-]. now apply prefix_drop in E.
  - destruct (prefix d (String c s)) eqn:E.
    + intros [= <- <-]. now apply prefix_drop in E.
    + destruct (cut d s) as [[a' b']|]; [|discriminate].
      intros [= <- <-]. simpl. f_equal. now apply IH.
Qed.

(** The first line of a grid button is the text before the first
    separator when the text after it holds no line terminator, and the
    whole title when there is no separator. *)
Lemma short_label_cut (t : string) :
  match cut sep t with
  | Some (a, b) => after_dots b = "" -> short_label t = a
  | None => short_label t = t
  end.
Proof.
  unfold short_label.
  induction t as [|c t IH]; [reflexivity|].
  cbn [cut replace_sep_rest].
  destruct (prefix sep (String c t)); [auto|].
  destruct (cut sep t) as [[a b]|].
  - intros H. f_equal. auto.
  - f_equal. exact IH.
Qed.

Lemma split_from_skip (d : string) (k : nat) :
  forall cur s, split_from d k cur s = split_from d 0 cur (drop k s).
Proof.
  induction k as [|k IH]; intros cur s; [now destruct s|].
  destruct s as [|c s]; [reflexivity|]. simpl. apply IH.
Qed.

Lemma split_from_none (d : string) (s : string) :
  forall cur, includes d s = false -> split_from d 0 cur s = [cur ++ s].
Proof.
  induction s as [|c s IH]; intros cur; cbn [includes split_from].
  - now rewrite append_nil_r.
  - destruct (prefix d (String c s)); [discriminate|].
    intros H. rewrite IH by exact H. now rewrite append_assoc.
Qed.

(** A title with exactly one separator splits in two. *)
Lemma split_cut (t a b : string) :
  cut sep t = Some (a, b) -> includes sep b = false ->
  split sep t = [a; b].
Proof.
  unfold split. intros Hc Hb.
  enough (H : forall cur, split_from sep 0 cur t = [cur ++ a; b])
    by apply (H "").
  revert a Hc. induction t as [|c t IH]; intros a Hc cur.
  - discriminate.
  - cbn [cut] in Hc. cbn [split_from].
    destruct (prefix sep (String c t)).
    + injection Hc as <- <-. rewrite append_nil_r.
      rewrite split_from_skip. f_equal.
      now rewrite split_from_none by exact Hb.
    + destruct (cut sep t) as [[a' b']|]; [|discriminate].
      injection Hc as <- <-. rewrite (IH a' eq_refl).
      now rewrite append_assoc.
Qed.

(** C9, as the code has it.  For every slide of the deck the title
    holds the separator, the first line of its grid button is the text
    before the separator, and the second line is the text after the
    separator when the title contains "Slide" and the word "Section"
    otherwise; the same holds of any title with one separator and no
    line terminator after it. *)
Theorem jump_grid_entry :
  Forall (fun s =>
            Some (short_label (title s)) = text_before (title s) /\
            subtitle (title s)
            = if includes "Slide" (title s) then text_after (title s)
              else Some "Section")
         slides /\
  (forall t a b,
     cut sep t = Some (a, b) -> includes sep b = false ->
     after_dots b = "" ->
     t = a ++ sep ++ b /\ short_label t = a /\
     subtitle t = if includes "Slide" t then Some b else Some "Section").
Proof.
  split.
  - unfold slides. repeat constructor.
  - intros t a b Hc Hb Hd.
    split; [now apply cut_sound|].
    split.
    + pose proof (short_label_cut t) as H. rewrite Hc in H. auto.
    + unfold subtitle. rewrite (split_cut t a b Hc Hb). reflexivity.
Qed.

End JumpGridProperties.

(** C9 as claimed fails on the section dividers: the second line of the
    first slide's button is "Section", not the text after the
    separator. *)
Lemma section_subtitle_is_literal :
  let t := "Section 1 — Foundations (FMM, Principles, Objectives)"%string in
  In t (map JumpGrid.title JumpGrid.slides) /\
  JumpGrid.text_after t
  = Some "Foundations (FMM, Principles, Objectives)"%string /\
  JumpGrid.subtitle t = Some "Section"%string /\
  ~ (forall s, In s JumpGrid.slides ->
       JumpGrid.subtitle (JumpGrid.title s)
       = JumpGrid.text_after (JumpGrid.title s)).
Proof.
  intros t.
  split; [left; reflexivity|].
  split; [reflexivity|]. split; [reflexivity|].
  intros H.
  specialize (H (JumpGrid.mkSlide "sec-1" t (Some JumpGrid.section))
                (or_introl eq_refl)).
  discriminate H.
Qed.

(** C9 on the title of the deck's second slide. *)
Lemma jump_grid_entry_witness :
  let t := "Slide 1 — Title & Session Map"%string in
  JumpGrid.cut JumpGrid.sep t = Some ("Slide 1", "Title & Session Map")%string /\
  JumpGrid.includes JumpGrid.sep "Title & Session Map" = false /\
  JumpGrid.after_dots "Title & Session Map" = ""%string /\
  JumpGrid.short_label t = "Slide 1"%string /\
  JumpGrid.subtitle t = Some "Title & Session Map"%string.
Proof.
  intros t.
  assert (Hc : JumpGrid.cut JumpGrid.sep t
               = Some ("Slide 1", "Title & Session Map")%string)
    by reflexivity.
  assert (Hb : JumpGrid.includes JumpGrid.sep "Title & Session Map" = false)
    by reflexivity.
  assert (Hd : JumpGrid.after_dots "Title & Session Map" = ""%string)
    by reflexivity.
  destruct (proj2 jump_grid_entry t _ _ Hc Hb Hd) as (_ & H2 & H3).
  split; [exact Hc|]. split; [exact Hb|]. split; [exact Hd|].
  split; [exact H2|exact H3].
Defined.

(** * Further properties of the deck shell *)

Section DeckNavigation.

Import Deck.

Variable total : Z.
Hypothesis total_pos : 1 <= total.

Lemma steps_up (ds : list Z) :
  Forall (fun d => 0 <= d) ds ->
  forall i, in_range total i ->
    steps total ds i = go total (fold_right Z.add 0 ds) i.
Proof.
  induction 1 as [|d ds Hd Hds IH]; intros i Hi; simpl.
  - unfold go, in_range in *. lia.
  - rewrite IH by (apply go_in_range; exact total_pos).
    assert (0 <= fold_right Z.add 0 ds).
    { clear -Hds. induction Hds; simpl; lia. }
    unfold go, in_range in *. lia.
Qed.

Lemma steps_down (ds : list Z) :
  Forall (fun d => d <= 0) ds ->
  forall i, in_range total i ->
    steps total ds i = go total (fold_right Z.add 0 ds) i.
Proof.
  induction 1 as [|d ds Hd Hds IH]; intros i Hi; simpl.
  - unfold go, in_range in *. lia.
  - rewrite IH by (apply go_in_range; exact total_pos).
    assert (fold_right Z.add 0 ds <= 0).
    { clear -Hds. induction Hds; simpl; lia. }
    unfold go, in_range in *. lia.
Qed.

(** X1.  Steps in one direction add up: from a valid index, a run of
    [go] calls whose deltas are all non-negative (or all non-positive)
    ends where a single [go] by their sum ends; and a step that stays
    within range is undone by the opposite step. *)
Theorem steps_add_up (ds : list Z) (i : Z) (Hi : in_range total i) :
  (Forall (fun d => 0 <= d) ds ->
   steps total ds i = go total (fold_right Z.add 0 ds) i) /\
  (Forall (fun d => d <= 0) ds ->
   steps total ds i = go total (fold_right Z.add 0 ds) i) /\
  (forall d, in_range total (i + d) -> go total (- d) (go total d i) = i).
Proof.
  split; [|split].
  - intros H. now apply steps_up.
  - intros H. now apply steps_down.
  - intros d Hd. unfold go, in_range in *. lia.
Qed.

(** X2.  On every reachable page a click on Next does what ArrowRight
    does and a click on Prev what ArrowLeft does: the buttons' [disabled]
    tests and the clamp in [go] agree. *)
Theorem buttons_match_keys (p : page) (Hp : reachable total p) :
  step total ClickNext p = step total (KeyDown "ArrowRight") p /\
  step total ClickPrev p = step total (KeyDown "ArrowLeft") p.
Proof.
  destruct (current p) as [i|] eqn:Hc.
  - destruct (reachable_mounted total total_pos p i Hp Hc) as (id & -> & Hi).
    unfold in_range in Hi.
    simpl. rewrite !setIdx_mounted.
    unfold next_request, prev_request, next_disabled, prev_disabled, onKey.
    simpl. split; f_equal; f_equal; f_equal.
    + destruct (Z.eqb_spec i (total - 1)); simpl; unfold go; lia.
    + destruct (Z.eqb_spec i 0); simpl; unfold go; lia.
  - rewrite (reachable_unmounted total total_pos p Hp Hc). simpl. auto.
Qed.

(** X3.  Next followed by Prev brings the same page back except on the
    last slide, where Next is disabled and Prev then moves one back;
    likewise Prev followed by Next except on the first slide. *)
Theorem next_prev_round_trip (p : page) (i : Z)
  (Hp : reachable total p) (Hi : current p = Some i) :
  (i < total - 1 -> step total ClickPrev (step total ClickNext p) = p) /\
  (0 < i -> step total ClickNext (step total ClickPrev p) = p) /\
  (i = total - 1 ->
   current (step total ClickPrev (step total ClickNext p))
   = Some (Z.max 0 (total - 2))) /\
  (i = 0 ->
   current (step total ClickNext (step total ClickPrev p))
   = Some (Z.min 1 (total - 1))).
Proof.
  destruct (reachable_mounted total total_pos p i Hp Hi) as (id & -> & Hr).
  unfold in_range in Hr.
  simpl. rewrite !setIdx_mounted. simpl. rewrite !setIdx_mounted.
  unfold next_request, prev_request, next_disabled, prev_disabled, current.
  simpl.
  repeat split; intros H.
  - destruct (Z.eqb_spec i (total - 1)); [lia|]. simpl.
    destruct (Z.eqb_spec (go total 1 i) 0) as [E|E];
      simpl; unfold go in *; do 3 f_equal; lia.
  - destruct (Z.eqb_spec i 0); [lia|]. simpl.
    destruct (Z.eqb_spec (go total (-1) i) (total - 1)) as [E|E];
      simpl; unfold go in *; do 3 f_equal; lia.
  - subst i. rewrite Z.eqb_refl. simpl.
    destruct (Z.eqb_spec (total - 1) 0); simpl; unfold go; f_equal; lia.
  - subst i. rewrite Z.eqb_refl. cbn [apply_request].
    destruct (Z.eqb_spec 0 (total - 1)); cbn [apply_request]; unfold go;
      f_equal; lia.
Qed.

(** X4.  A click on the [n]-th button of the quick-jump grid shows
    slide [n], whatever was shown before; there is no button beyond the
    last slide; and every slide can be brought up, by one jump or by
    ArrowRight alone. *)
Theorem jump_shows_slide (n : nat) :
  (forall p i, reachable total p -> current p = Some i ->
     current (step total (ClickJump n) p)
     = Some (if Z.of_nat n <? total then Z.of_nat n else i)) /\
  (Z.of_nat n < total ->
   current (run total [Mount; ClickJump n] initial) = Some (Z.of_nat n) /\
   current (run total (Mount :: repeat (KeyDown "ArrowRight") n) initial)
   = Some (Z.of_nat n)).
Proof.
  split.
  - intros p i Hp Hc.
    destruct (reachable_mounted total total_pos p i Hp Hc) as (id & -> & _).
    simpl. destruct (Z.of_nat n <? total); [|reflexivity].
    now rewrite setIdx_mounted.
  - intros Hn. split.
    + simpl. apply Z.ltb_lt in Hn. rewrite Hn.
      now rewrite setIdx_mounted.
    + simpl.
      assert (H : forall k (j : Z),
                 run total (repeat (KeyDown "ArrowRight") k)
                     (mkPage (Some (0%nat, j)) [0%nat] 1)
                 = mkPage (Some (0%nat, Nat.iter k (go total 1) j))
                          [0%nat] 1).
      { induction k as [|k IH]; intros j; [reflexivity|].
        simpl. rewrite setIdx_mounted.
        change (fold_left (fun q e => step total e q)
                  (repeat (KeyDown "ArrowRight") k))
          with (run total (repeat (KeyDown "ArrowRight") k)).
        rewrite IH. do 3 f_equal.
        change (onKey total "ArrowRight" j) with (go total 1 j).
        clear. induction k as [|k IHk]; [reflexivity|].
        simpl. now rewrite IHk. }
      change (fold_left (fun q e => step total e q)
                (repeat (KeyDown "ArrowRight") n))
        with (run total (repeat (KeyDown "ArrowRight") n)).
      rewrite H. unfold current. simpl.
      rewrite (go_up_iter total total_pos). f_equal. lia.
Qed.

End DeckNavigation.

(** X1 on the deck: three steps forward from slide 20. *)
Lemma steps_add_up_witness :
  1 <= JumpGrid.total /\ Deck.in_range JumpGrid.total 18 /\
  Forall (fun d => 0 <= d) [1; 1; 1] /\
  Deck.steps JumpGrid.total [1; 1; 1] 18 = 21.
Proof.
  assert (H : 1 <= JumpGrid.total) by (vm_compute; discriminate).
  assert (Hi : Deck.in_range JumpGrid.total 18)
    by (split; vm_compute; discriminate).
  assert (Hd : Forall (fun d => 0 <= d) [1; 1; 1])
    by (repeat constructor; vm_compute; discriminate).
  split; [exact H|]. split; [exact Hi|]. split; [exact Hd|].
  exact (proj1 (steps_add_up JumpGrid.total H [1; 1; 1] 18 Hi) Hd).
Defined.

(** X2 on the deck's first slide. *)
Lemma buttons_match_keys_witness :
  let p := Deck.run JumpGrid.total [Deck.Mount] Deck.initial in
  1 <= JumpGrid.total /\ Deck.reachable JumpGrid.total p /\
  Deck.step JumpGrid.total Deck.ClickPrev p
  = Deck.step JumpGrid.total (Deck.KeyDown "ArrowLeft") p.
Proof.
  intros p.
  assert (H : 1 <= JumpGrid.total) by (vm_compute; discriminate).
  assert (Hp : Deck.reachable JumpGrid.total p) by (eexists; reflexivity).
  split; [exact H|]. split; [exact Hp|].
  exact (proj2 (buttons_match_keys JumpGrid.total H p Hp)).
Defined.

(** X3 on the deck's second slide. *)
Lemma next_prev_round_trip_witness :
  let p := Deck.run JumpGrid.total [Deck.Mount; Deck.ClickNext]
                    Deck.initial in
  1 <= JumpGrid.total /\ Deck.reachable JumpGrid.total p /\
  Deck.current p = Some 1 /\ 1 < JumpGrid.total - 1 /\
  Deck.step JumpGrid.total Deck.ClickPrev
    (Deck.step JumpGrid.total Deck.ClickNext p) = p.
Proof.
  intros p.
  assert (H : 1 <= JumpGrid.total) by (vm_compute; discriminate).
  assert (Hp : Deck.reachable JumpGrid.total p) by (eexists; reflexivity).
  assert (Hi : Deck.current p = Some 1) by reflexivity.
  assert (Hlt : 1 < JumpGrid.total - 1) by reflexivity.
  split; [exact H|]. split; [exact Hp|]. split; [exact Hi|].
  split; [exact Hlt|].
  exact (proj1 (next_prev_round_trip JumpGrid.total H p 1 Hp Hi) Hlt).
Defined.

(** X4 on the deck: the sixth grid button. *)
Lemma jump_shows_slide_witness :
  1 <= JumpGrid.total /\ Z.of_nat 5 < JumpGrid.total /\
  Deck.current
    (Deck.run JumpGrid.total [Deck.Mount; Deck.ClickJump 5] Deck.initial)
  = Some 5.
Proof.
  assert (H : 1 <= JumpGrid.total) by (vm_compute; discriminate).
  assert (Hn : Z.of_nat 5 < JumpGrid.total) by reflexivity.
  split; [exact H|]. split; [exact Hn|].
  exact (proj1 (proj2 (jump_shows_slide JumpGrid.total H 5) Hn)).
Defined.

(** * Properties of what the deck shows *)

Section DeckView.

Import Deck View.

Lemma total_is_length : JumpGrid.total = Z.of_nat (List.length JumpGrid.slides).
Proof. reflexivity. Qed.

Lemma deck_total_pos : 1 <= JumpGrid.total.
Proof. vm_compute. discriminate. Qed.

Lemma slide_at_nth (i : Z) :
  0 <= i -> slide_at i = nth_error JumpGrid.slides (Z.to_nat i).
Proof.
  intros Hi. unfold slide_at.
  destruct (Z.ltb_spec i 0); [lia|reflexivity].
Qed.

Lemma slide_at_in_range (i : Z) :
  in_range JumpGrid.total i ->
  exists s, slide_at i = Some s /\ In s JumpGrid.slides.
Proof.
  intros [H0 H1]. rewrite slide_at_nth by exact H0.
  destruct (nth_error JumpGrid.slides (Z.to_nat i)) as [s|] eqn:E.
  - exists s. split; [reflexivity|]. eapply nth_error_In, E.
  - apply nth_error_None in E. rewrite total_is_length in H1. lia.
Qed.

Lemma nth_error_mapi_from {A B : Type} (f : A -> nat -> B) (l : list A) :
  forall k n,
    nth_error (mapi_from f k l) n
    = option_map (fun a => f a (k + n)%nat) (nth_error l n).
Proof.
  induction l as [|a l IH]; intros k n.
  - now destruct n.
  - destruct n as [|n]; simpl.
    + now rewrite Nat.add_0_r.
    + rewrite IH. now rewrite Nat.add_succ_r.
Qed.

Lemma length_mapi_from {A B : Type} (f : A -> nat -> B) (l : list A) :
  forall k, List.length (mapi_from f k l) = List.length l.
Proof. induction l as [|a l IH]; intros k; simpl; auto. Qed.

(** Among buttons numbered from [k] on, the test [i===idx] picks one
    button when [idx] is one of the numbers and none otherwise. *)
Lemma one_highlight (idx : Z) (l : list JumpGrid.Slide) :
  forall k,
    List.length
      (filter highlighted
         (mapi_from
            (fun s i =>
               mkButton (JumpGrid.key s) (Z.of_nat i =? idx)
                        (JumpGrid.short_label (JumpGrid.title s))
                        (JumpGrid.subtitle (JumpGrid.title s))) k l))
    = if (Z.of_nat k <=? idx) && (idx <? Z.of_nat (k + List.length l))
      then 1%nat else 0%nat.
Proof.
  induction l as [|s l IH]; intros k.
  - simpl. rewrite Nat.add_0_r.
    destruct (Z.leb_spec (Z.of_nat k) idx), (Z.ltb_spec idx (Z.of_nat k));
      simpl; auto; lia.
  - cbn [mapi_from filter highlighted List.length]. specialize (IH (S k)).
    replace (k + S (List.length l))%nat with (S k + List.length l)%nat by lia.
    destruct (Z.eqb_spec (Z.of_nat k) idx) as [E|E]; cbn [List.length];
      rewrite IH;
      destruct (Z.leb_spec (Z.of_nat (S k)) idx),
               (Z.leb_spec (Z.of_nat k) idx),
               (Z.ltb_spec idx (Z.of_nat (S k + List.length l)));
      simpl; auto; lia.
Qed.

(** X5.  Whenever the deck is mounted, [slides[idx]] is a slide of the
    deck, never [undefined]; the grid has one button per slide, and
    exactly one of them is highlighted, the one for the slide shown. *)
Theorem shown_slide_exists (p : page) (i : Z)
  (Hp : reachable JumpGrid.total p) (Hi : current p = Some i) :
  exists s,
    slide_at i = Some s /\ In s JumpGrid.slides /\
    shown_key p = Some (JumpGrid.key s) /\
    List.length (grid i) = List.length JumpGrid.slides /\
    nth_error (grid i) (Z.to_nat i)
    = Some (mkButton (JumpGrid.key s) true
                     (JumpGrid.short_label (JumpGrid.title s))
                     (JumpGrid.subtitle (JumpGrid.title s))) /\
    List.length (filter highlighted (grid i)) = 1%nat.
Proof.
  destruct (reachable_mounted _ deck_total_pos p i Hp Hi) as (id & _ & Hr).
  destruct (slide_at_in_range i Hr) as (s & Hs & Hin).
  exists s. split; [exact Hs|]. split; [exact Hin|].
  split; [unfold shown_key; now rewrite Hi, Hs|].
  split; [apply length_mapi_from|].
  destruct Hr as [H0 H1]. split.
  - unfold grid, mapi. rewrite nth_error_mapi_from.
    rewrite <- slide_at_nth, Hs by exact H0. simpl.
    rewrite Z2Nat.id by exact H0. now rewrite Z.eqb_refl.
  - unfold grid, mapi. rewrite one_highlight.
    rewrite total_is_length in H1.
    destruct (Z.leb_spec (Z.of_nat 0) i),
             (Z.ltb_spec i (Z.of_nat (0 + List.length JumpGrid.slides)));
      simpl; auto; lia.
Qed.

Lemma keys_distinct : NoDup (map JumpGrid.key JumpGrid.slides).
Proof.
  change (map JumpGrid.key JumpGrid.slides)
    with (nodup string_dec (map JumpGrid.key JumpGrid.slides)).
  apply NoDup_nodup.
Qed.

(** X6.  The slides' keys are pairwise distinct, so two pages that show
    different slides give the animated panel different keys, and no two
    grid buttons share a key. *)
Theorem panel_key_changes (p q : page) (i j : Z)
  (Hp : reachable JumpGrid.total p) (Hq : reachable JumpGrid.total q)
  (Hi : current p = Some i) (Hj : current q = Some j) :
  (i <> j -> shown_key p <> shown_key q) /\
  NoDup (map button_key (grid i)).
Proof.
  destruct (reachable_mounted _ deck_total_pos p i Hp Hi) as (_ & _ & Hri).
  destruct (reachable_mounted _ deck_total_pos q j Hq Hj) as (_ & _ & Hrj).
  split.
  - intros Hne Heq. apply Hne.
    unfold shown_key in Heq. rewrite Hi, Hj in Heq.
    destruct Hri as [Hi0 Hi1], Hrj as [Hj0 Hj1].
    rewrite !slide_at_nth in Heq by assumption.
    rewrite <- !nth_error_map in Heq.
    rewrite total_is_length in Hi1.
    assert (E : Z.to_nat i = Z.to_nat j).
    { apply (proj1 (NoDup_nth_error _) keys_distinct); [|exact Heq].
      rewrite length_map. lia. }
    lia.
  - replace (map button_key (grid i)) with (map JumpGrid.key JumpGrid.slides);
      [apply keys_distinct|].
    unfold grid, mapi. generalize 0%nat.
    induction JumpGrid.slides as [|s l IH]; intros k; simpl; [reflexivity|].
    f_equal. apply IH.
Qed.

Lemma progress_table :
  forallb progress_checked (seq 0 (List.length JumpGrid.slides)) = true.
Proof. vm_compute. reflexivity. Qed.

(** X7.  Whenever the deck is mounted, the progress value, computed in
    double precision, is above 0 and at most 100, is exactly 100 on the
    last slide and only there, and is larger than on the slide before. *)
Theorem progress_bounds (p : page) (i : Z)
  (Hp : reachable JumpGrid.total p) (Hi : current p = Some i) :
  let v := progress i JumpGrid.total in
  PrimFloat.ltb (number 0) v = true /\
  PrimFloat.leb v (number 100) = true /\
  (PrimFloat.eqb v (number 100) = true <-> i = JumpGrid.total - 1) /\
  PrimFloat.ltb (progress (i - 1) JumpGrid.total) v = true.
Proof.
  destruct (reachable_mounted _ deck_total_pos p i Hp Hi) as (_ & _ & Hr).
  destruct Hr as [H0 H1]. rewrite total_is_length in H1.
  pose proof (proj1 (forallb_forall _ _) progress_table (Z.to_nat i)) as H.
  unfold progress_checked in H. rewrite Z2Nat.id in H by exact H0.
  assert (Hin : In (Z.to_nat i) (seq 0 (List.length JumpGrid.slides)))
    by (apply in_seq; lia).
  specialize (H Hin).
  apply andb_prop in H as [H H4]. apply andb_prop in H as [H H3].
  apply andb_prop in H as [H1' H2].
  cbv zeta. split; [exact H1'|]. split; [exact H2|]. split; [|exact H4].
  apply Bool.eqb_prop in H3. rewrite H3. apply Z.eqb_eq.
Qed.

End DeckView.

(** X5 on the deck after two presses of ArrowRight. *)
Lemma shown_slide_exists_witness :
  let p := Deck.run JumpGrid.total
             [Deck.Mount; Deck.KeyDown "ArrowRight"; Deck.KeyDown "ArrowRight"]
             Deck.initial in
  Deck.reachable JumpGrid.total p /\ Deck.current p = Some 2 /\
  exists s, View.slide_at 2 = Some s /\ View.shown_key p = Some (JumpGrid.key s).
Proof.
  intros p.
  assert (Hp : Deck.reachable JumpGrid.total p) by (eexists; reflexivity).
  assert (Hi : Deck.current p = Some 2) by reflexivity.
  split; [exact Hp|]. split; [exact Hi|].
  destruct (shown_slide_exists p 2 Hp Hi) as (s & H1 & _ & H3 & _).
  exists s. split; [exact H1|exact H3].
Defined.

(** X6 on the deck's first two slides. *)
Lemma panel_key_changes_witness :
  let p := Deck.run JumpGrid.total [Deck.Mount] Deck.initial in
  let q := Deck.run JumpGrid.total [Deck.Mount; Deck.ClickNext]
                    Deck.initial in
  Deck.reachable JumpGrid.total p /\ Deck.reachable JumpGrid.total q /\
  Deck.current p = Some 0 /\ Deck.current q = Some 1 /\ 0 <> 1 /\
  View.shown_key p <> View.shown_key q.
Proof.
  intros p q.
  assert (Hp : Deck.reachable JumpGrid.total p) by (eexists; reflexivity).
  assert (Hq : Deck.reachable JumpGrid.total q) by (eexists; reflexivity).
  assert (Hi : Deck.current p = Some 0) by reflexivity.
  assert (Hj : Deck.current q = Some 1) by reflexivity.
  assert (Hne : 0 <> 1) by discriminate.
  split; [exact Hp|]. split; [exact Hq|]. split; [exact Hi|].
  split; [exact Hj|]. split; [exact Hne|].
  exact (proj1 (panel_key_changes p q 0 1 Hp Hq Hi Hj) Hne).
Defined.

(** X7 on the deck's last slide. *)
Lemma progress_bounds_witness :
  let p := Deck.run JumpGrid.total [Deck.Mount; Deck.ClickJump 21]
                    Deck.initial in
  Deck.reachable JumpGrid.total p /\ Deck.current p = Some 21 /\
  PrimFloat.eqb (View.progress 21 JumpGrid.total) (View.number 100) = true.
Proof.
  intros p.
  assert (Hp : Deck.reachable JumpGrid.total p) by (eexists; reflexivity).
  assert (Hi : Deck.current p = Some 21) by reflexivity.
  split; [exact Hp|]. split; [exact Hi|].
  exact (proj2 (proj1 (proj2 (proj2 (progress_bounds p 21 Hp Hi))))
           eq_refl).
Defined.

(** * Further properties of the one-minute timer *)

Section TimerCountdown.

Import OneMinuteTimer.

Create HintDb countdown.
#[local] Hint Resolve timer_ok_mount start_ok pause_ok reset_ok unmount_ok
  tick_ok elapse_ok step_ok run_ok reachable_timer_ok : countdown.

(** A millisecond either changes neither [seconds] nor [fired], or
    takes one off the first and adds one to the second. *)
Lemma tick_effect (st : state) :
  timer_ok st ->
  (seconds (tick_ms st) = seconds st /\ fired (tick_ms st) = fired st) \/
  (seconds (tick_ms st) = seconds st - 1 /\
   fired (tick_ms st) = S (fired st)).
Proof.
  intros Hok.
  destruct (timer_ok_cases st Hok)
    as (Hs & [(Hc & Hq & _)|(id & due & Hst & H0 & Hd)]).
  - left. rewrite tick_idle by exact Hq. auto.
  - rewrite Hst. destruct (Z.eq_dec due (now st + 1)) as [->|Hne].
    + right. rewrite tick_fire.
      destruct (seconds st - 1 =? 0); auto.
    + left. rewrite (tick_quiet _ id due); [auto|reflexivity|simpl; lia].
Qed.

Lemma elapse_effect (n : nat) (st : state) :
  timer_ok st ->
  seconds (elapse n st) + Z.of_nat (fired (elapse n st))
  = seconds st + Z.of_nat (fired st) /\
  (fired st <= fired (elapse n st))%nat.
Proof.
  intros Hok. induction n as [|n [IH1 IH2]]; [auto|].
  rewrite elapse_succ.
  destruct (tick_effect (elapse n st)) as [[H1 H2]|[H1 H2]];
    [now apply elapse_ok| |]; rewrite H1, H2; lia.
Qed.

Lemma step_effect (e : event) (st : state) :
  timer_ok st -> is_reset e = false ->
  seconds (step e st) + Z.of_nat (fired (step e st))
  = seconds st + Z.of_nat (fired st) /\
  (fired st <= fired (step e st))%nat.
Proof.
  intros Hok He.
  assert (Hc : forall r,
            seconds (commit (seconds st) r st) = seconds st /\
            fired (commit (seconds st) r st) = fired st).
  { intros r. destruct (mounted st) eqn:Hm.
    - destruct (commit_cells (seconds st) r st Hm) as (-> & _ & _ & -> & _).
      auto.
    - now rewrite commit_unmounted. }
  destruct e; try discriminate; simpl.
  - unfold start. destruct (Hc true) as [-> ->]. lia.
  - unfold pause. destruct (Hc false) as [-> ->]. lia.
  - destruct (unmount_torn_down st Hok) as (_ & _ & -> & ->). lia.
  - now apply elapse_effect.
Qed.

(** X8.  From every reachable state, along any events other than a
    reset, [seconds] plus the number of callbacks run stays the same:
    every callback takes exactly one second off and nothing else changes
    [seconds]; so [seconds] never goes up. *)
Theorem seconds_plus_fired (st : state) (Hst : reachable st)
  (es : list event) (Hes : forallb (fun e => negb (is_reset e)) es = true) :
  let st' := run es st in
  seconds st' + Z.of_nat (fired st') = seconds st + Z.of_nat (fired st) /\
  (fired st <= fired st')%nat /\ seconds st' <= seconds st.
Proof.
  cbv zeta.
  enough (H : seconds (run es st) + Z.of_nat (fired (run es st))
              = seconds st + Z.of_nat (fired st) /\
              (fired st <= fired (run es st))%nat) by lia.
  pose proof (reachable_timer_ok st Hst) as Hok. clear Hst.
  revert st Hok. induction es as [|e es IH]; intros st Hok; [simpl; lia|].
  simpl in Hes. apply andb_prop in Hes as [He Hes].
  apply negb_true_iff in He.
  rewrite run_cons.
  destruct (step_effect e st Hok He) as [H1 H2].
  destruct (IH Hes (step e st)) as [K1 K2]; [auto with countdown|].
  lia.
Qed.

(** Up to a second from an armed state: the timeout falls due at most
    once. *)
Lemma within_second_armed (m : nat) (s : Z) (id : nat) (due t : Z)
  (n f : nat) :
  (m <= 1000)%nat -> t < due <= t + 1000 ->
  elapse m (armed s id due t n f) =
  if t + Z.of_nat m <? due then armed s id due (t + Z.of_nat m) n f
  else if s - 1 =? 0
       then mkState (s - 1) true None true (t + Z.of_nat m) n [] (S f)
       else armed (s - 1) n (due + 1000) (t + Z.of_nat m) (S n) (S f).
Proof.
  intros Hm Hd.
  destruct (Z.ltb_spec (t + Z.of_nat m) due) as [Hlt|Hge].
  - rewrite (elapse_quiet m _ id due); [|reflexivity|exact Hlt].
    apply shift_armed.
  - assert (exists k j : nat,
              (m = k + (1 + j))%nat /\ due = t + Z.of_nat k + 1)
      as (k & j & E & ->).
    { exists (Z.to_nat (due - t - 1)),
             (m - 1 - Z.to_nat (due - t - 1))%nat. lia. }
    rewrite E, !elapse_add.
    rewrite (elapse_quiet k _ id (t + Z.of_nat k + 1));
      [|reflexivity|cbn [now armed]; lia].
    rewrite shift_armed.
    change (elapse 1 ?a) with (tick_ms a).
    rewrite tick_fire.
    destruct (s - 1 =? 0).
    + rewrite elapse_idle by reflexivity. unfold shift.
      cbn [seconds running cleanup mounted now next_id queue fired].
      f_equal. lia.
    + rewrite (elapse_quiet _ _ n (t + Z.of_nat k + 1 + 1000));
        [|reflexivity|cbn [now armed]; lia].
      rewrite shift_armed. f_equal. lia.
Qed.

Lemma within_second (m : nat) (st : state) :
  timer_ok st -> (m <= 1000)%nat ->
  (fired (elapse m st) <= S (fired st))%nat.
Proof.
  intros Hok Hm.
  destruct (timer_ok_cases st Hok)
    as (_ & [(_ & Hq & _)|(id & due & Hst & _ & Hd)]).
  - rewrite elapse_idle by exact Hq. simpl. lia.
  - rewrite Hst at 1. rewrite within_second_armed by assumption.
    destruct (now st + Z.of_nat m <? due); [simpl; lia|].
    destruct (seconds st - 1 =? 0); simpl; lia.
Qed.

Lemma within_seconds (q : nat) :
  forall (m : nat) (st : state),
    timer_ok st -> (m <= 1000 * q)%nat ->
    (fired (elapse m st) <= fired st + q)%nat.
Proof.
  induction q as [|q IH]; intros m st Hok Hm.
  - replace m with 0%nat by lia. simpl. lia.
  - destruct (Nat.le_gt_cases m 1000) as [Hle|Hgt].
    + pose proof (within_second m st Hok Hle). lia.
    + replace m with (1000 + (m - 1000))%nat by lia.
      rewrite elapse_add.
      pose proof (within_second 1000 st Hok (Nat.le_refl _)) as H1.
      pose proof (IH (m - 1000)%nat (elapse 1000 st)
                     (elapse_ok 1000 st Hok)) as H2.
      lia.
Qed.

(** X9.  However the buttons were pressed before, the countdown never
    runs fast: from every reachable state, in [m] milliseconds with
    [m <= 1000 * q] at most [q] callbacks run; and at no time is more
    than one timeout pending. *)
Theorem never_fast (st : state) (Hst : reachable st) (m q : nat)
  (Hm : (m <= 1000 * q)%nat) :
  (fired (elapse m st) <= fired st + q)%nat /\
  (List.length (queue st) <= 1)%nat.
Proof.
  pose proof (reachable_timer_ok st Hst) as Hok.
  split; [now apply within_seconds|].
  destruct (timer_ok_cases st Hok)
    as (_ & [(_ & -> & _)|(id & due & -> & _)]); simpl; lia.
Qed.

(** The shape of a mounted state after [pause] or [reset]. *)
Lemma stopped_shape (s : Z) (st : state) :
  timer_ok st -> mounted st = true -> 0 <= s <= 60 ->
  exists n,
    commit s false st = mkState s false None true (now st) n [] (fired st).
Proof.
  intros Hok Hm Hs.
  destruct (commit_cells s false st Hm) as (H1 & H2 & H3 & H4 & H5).
  destruct (button_queue_empty s st Hok Hs) as [H6 H7].
  exists (next_id (commit s false st)).
  destruct (commit s false st); simpl in *. now subst.
Qed.

(** [start] after [pause] or [reset] arms a full second. *)
Lemma restarted_shape (s : Z) (st : state) :
  timer_ok st -> mounted st = true -> 0 < s <= 60 ->
  exists n,
    start (commit s false st)
    = armed s n (now st + 1000) (now st) (S n) (fired st).
Proof.
  intros Hok Hm Hs.
  destruct (stopped_shape s st Hok Hm) as (n & ->); [lia|].
  exists n. unfold start. cbn [seconds].
  rewrite commit_idle by (rewrite Z.eqb_refl; reflexivity).
  destruct (Z.eqb_spec s 0); [lia|reflexivity].
Qed.

Lemma pause_resume_once (n : nat) (st : state) :
  timer_ok st -> mounted st = true -> 0 < seconds st -> (n < 1000)%nat ->
  let st' := elapse n (start (pause st)) in
  timer_ok st' /\ mounted st' = true /\
  seconds st' = seconds st /\ fired st' = fired st.
Proof.
  intros Hok Hm Hs Hn. cbv zeta.
  split; [auto with countdown|].
  unfold pause.
  destruct (restarted_shape (seconds st) st Hok Hm) as (k & ->);
    [destruct Hok; lia|].
  rewrite (elapse_quiet n _ k (now st + 1000));
    [|reflexivity|cbn [now armed]; lia].
  rewrite shift_armed. auto.
Qed.

(** X10.  [start] arms a new full second after a pause, however short:
    pausing and resuming again and again, each time less than a second
    apart, never lets the countdown move; whereas [start] on a timer that
    is already running leaves the pending timeout and everything else as
    it is. *)
Theorem pause_resume_stalls (st : state) (Hst : reachable st)
  (Hm : mounted st = true) (Hs : 0 < seconds st)
  (ns : list nat) (Hns : Forall (fun n => (n < 1000)%nat) ns) :
  let st' := run (pause_resume ns) st in
  seconds st' = seconds st /\ fired st' = fired st /\
  (running st = true -> start st = st).
Proof.
  cbv zeta. split; [|split].
  - pose proof (reachable_timer_ok st Hst) as Hok. clear Hst.
    revert st Hok Hm Hs.
    induction Hns as [|n ns Hn _ IH]; intros st Hok Hm Hs; [reflexivity|].
    cbn [pause_resume flat_map app]. rewrite !run_cons.
    cbn [step]. fold (pause_resume ns).
    destruct (pause_resume_once n st Hok Hm Hs Hn) as (K1 & K2 & K3 & K4).
    rewrite IH by (assumption || lia). exact K3.
  - pose proof (reachable_timer_ok st Hst) as Hok. clear Hst.
    revert st Hok Hm Hs.
    induction Hns as [|n ns Hn _ IH]; intros st Hok Hm Hs; [reflexivity|].
    cbn [pause_resume flat_map app]. rewrite !run_cons.
    cbn [step]. fold (pause_resume ns).
    destruct (pause_resume_once n st Hok Hm Hs Hn) as (K1 & K2 & K3 & K4).
    rewrite IH by (assumption || lia). exact K4.
  - intros Hr. unfold start, commit. rewrite Hm, Hr, Z.eqb_refl. reflexivity.
Qed.

(** Whole seconds from a state armed a full second ahead. *)
Lemma armed_seconds (k : nat) :
  forall (s : Z) (id : nat) (t : Z) (n f : nat),
    Z.of_nat k < s ->
    exists id' n',
      elapse (1000 * k) (armed s id (t + 1000) t n f)
      = armed (s - Z.of_nat k) id' (t + 1000 * Z.of_nat k + 1000)
              (t + 1000 * Z.of_nat k) n' (f + k).
Proof.
  induction k as [|k IH]; intros s id t n f Hk.
  - exists id, n. change (elapse (1000 * 0) ?a) with a.
    unfold armed. f_equal; try lia. do 2 f_equal. lia.
  - replace (1000 * S k)%nat with (1000 + 1000 * k)%nat by lia.
    rewrite elapse_add, second_armed by lia.
    destruct (Z.eqb_spec (s - 1) 0); [lia|].
    destruct (IH (s - 1) n (t + 1000) (S n) (S f)) as (id' & n' & ->); [lia|].
    exists id', n'. unfold armed. f_equal; try lia. do 2 f_equal. lia.
Qed.

Lemma armed_run_down (m : nat) (s : Z) (id : nat) (t : Z) (n f : nat) :
  0 < s ->
  let st' := elapse m (armed s id (t + 1000) t n f) in
  seconds st' = Z.max 0 (s - Z.of_nat (m / 1000)) /\
  fired st' = (f + Nat.min (Z.to_nat s) (m / 1000))%nat /\
  running st' = true.
Proof.
  intros Hs. cbv zeta.
  pose proof (Nat.div_mod_eq m 1000) as E.
  pose proof (Nat.mod_upper_bound m 1000 ltac:(discriminate)) as Hr.
  set (q := (m / 1000)%nat) in *. set (r := (m mod 1000)%nat) in *.
  destruct (Z.lt_ge_cases (Z.of_nat q) s) as [Hq|Hq].
  - rewrite E, elapse_add.
    destruct (armed_seconds q s id t n f Hq) as (id' & n' & ->).
    rewrite (elapse_quiet r _ id' (t + 1000 * Z.of_nat q + 1000));
      [|reflexivity|cbn [now armed]; lia].
    rewrite shift_armed. cbn [seconds fired running armed].
    repeat split; lia.
  - set (k := Z.to_nat (s - 1)).
    assert (Hk : Z.of_nat k = s - 1) by (subst k; lia).
    replace m with (1000 * k + (1000 + (m - 1000 * S k)))%nat by lia.
    rewrite !elapse_add.
    destruct (armed_seconds k s id t n f) as (id' & n' & ->); [lia|].
    rewrite second_armed by lia.
    destruct (Z.eqb_spec (s - Z.of_nat k - 1) 0); [|lia].
    rewrite elapse_idle by reflexivity.
    cbn [seconds fired running shift]. repeat split; lia.
Qed.

(** X11.  After [reset] and [start] on a mounted timer, with nothing
    else pressed, the value [m] milliseconds later is 60 less the whole
    seconds passed, and 0 from the sixtieth second on; as many callbacks
    have run; and [running] stays [true], also at zero. *)
Theorem run_down (st : state) (Hst : reachable st) (Hm : mounted st = true)
  (m : nat) :
  let st' := elapse m (start (reset st)) in
  seconds st' = Z.max 0 (60 - Z.of_nat (m / 1000)) /\
  fired st' = (fired st + Nat.min 60 (m / 1000))%nat /\
  running st' = true.
Proof.
  pose proof (reachable_timer_ok st Hst) as Hok.
  unfold reset.
  destruct (restarted_shape 60 st Hok Hm) as (n & ->); [lia|].
  apply (armed_run_down m 60 n (now st) (S n) (fired st)). lia.
Qed.

End TimerCountdown.

(** X8 on a timer that ran two and a half seconds, then paused, resumed
    and was unmounted. *)
Lemma seconds_plus_fired_witness :
  let st := OneMinuteTimer.run
              [OneMinuteTimer.Start; OneMinuteTimer.Elapse 2500]
              (OneMinuteTimer.mount 0 1) in
  let es := [OneMinuteTimer.Pause; OneMinuteTimer.Elapse 700;
             OneMinuteTimer.Start; OneMinuteTimer.Elapse 1200;
             OneMinuteTimer.Unmount; OneMinuteTimer.Elapse 3000] in
  OneMinuteTimer.reachable st /\
  forallb (fun e => negb (OneMinuteTimer.is_reset e)) es = true /\
  OneMinuteTimer.seconds (OneMinuteTimer.run es st)
  + Z.of_nat (OneMinuteTimer.fired (OneMinuteTimer.run es st))
  = OneMinuteTimer.seconds st + Z.of_nat (OneMinuteTimer.fired st).
Proof.
  intros st es.
  assert (Hst : OneMinuteTimer.reachable st)
    by (exists 0, 1%nat,
          [OneMinuteTimer.Start; OneMinuteTimer.Elapse 2500]; reflexivity).
  assert (Hes : forallb (fun e => negb (OneMinuteTimer.is_reset e)) es = true)
    by reflexivity.
  split; [exact Hst|]. split; [exact Hes|].
  exact (proj1 (seconds_plus_fired st Hst es Hes)).
Defined.

(** X9 on a timer started 400 ms ago: at most two callbacks in 1.7 s. *)
Lemma never_fast_witness :
  let st := OneMinuteTimer.run
              [OneMinuteTimer.Start; OneMinuteTimer.Elapse 400]
              (OneMinuteTimer.mount 0 1) in
  OneMinuteTimer.reachable st /\ (1700 <= 1000 * 2)%nat /\
  (OneMinuteTimer.fired (OneMinuteTimer.elapse 1700 st)
   <= OneMinuteTimer.fired st + 2)%nat.
Proof.
  intros st.
  assert (Hst : OneMinuteTimer.reachable st)
    by (exists 0, 1%nat,
          [OneMinuteTimer.Start; OneMinuteTimer.Elapse 400]; reflexivity).
  assert (Hm : (1700 <= 1000 * 2)%nat) by (apply Nat.leb_le; reflexivity).
  split; [exact Hst|]. split; [exact Hm|].
  exact (proj1 (never_fast st Hst 1700 2 Hm)).
Defined.

(** X10 on a running timer paused and resumed three times, 999 ms
    apart. *)
Lemma pause_resume_stalls_witness :
  let st := OneMinuteTimer.run
              [OneMinuteTimer.Start; OneMinuteTimer.Elapse 500]
              (OneMinuteTimer.mount 0 1) in
  OneMinuteTimer.reachable st /\ OneMinuteTimer.mounted st = true /\
  0 < OneMinuteTimer.seconds st /\
  Forall (fun n => (n < 1000)%nat) [999; 999; 999]%nat /\
  OneMinuteTimer.seconds
    (OneMinuteTimer.run (OneMinuteTimer.pause_resume [999; 999; 999]%nat) st)
  = OneMinuteTimer.seconds st.
Proof.
  intros st.
  assert (Hst : OneMinuteTimer.reachable st)
    by (exists 0, 1%nat,
          [OneMinuteTimer.Start; OneMinuteTimer.Elapse 500]; reflexivity).
  assert (Hm : OneMinuteTimer.mounted st = true) by (vm_compute; reflexivity).
  assert (Hs : 0 < OneMinuteTimer.seconds st) by (vm_compute; reflexivity).
  assert (Hns : Forall (fun n => (n < 1000)%nat) [999; 999; 999]%nat)
    by (repeat constructor; apply Nat.ltb_lt; reflexivity).
  split; [exact Hst|]. split; [exact Hm|]. split; [exact Hs|].
  split; [exact Hns|].
  exact (proj1 (pause_resume_stalls st Hst Hm Hs _ Hns)).
Defined.

(** X11 on a timer reset in the middle of a run: 4.3 s later. *)
Lemma run_down_witness :
  let st := OneMinuteTimer.run
              [OneMinuteTimer.Start; OneMinuteTimer.Elapse 4200]
              (OneMinuteTimer.mount 0 1) in
  OneMinuteTimer.reachable st /\ OneMinuteTimer.mounted st = true /\
  OneMinuteTimer.seconds
    (OneMinuteTimer.elapse 4300
       (OneMinuteTimer.start (OneMinuteTimer.reset st)))
  = Z.max 0 (60 - Z.of_nat (4300 / 1000)).
Proof.
  intros st.
  assert (Hst : OneMinuteTimer.reachable st)
    by (exists 0, 1%nat,
          [OneMinuteTimer.Start; OneMinuteTimer.Elapse 4200]; reflexivity).
  assert (Hm : OneMinuteTimer.mounted st = true) by (vm_compute; reflexivity).
  split; [exact Hst|]. split; [exact Hm|].
  exact (proj1 (run_down st Hst Hm 4300)).
Defined.

(** * Further properties of the rendered texts *)

Section ReadoutAnyValue.

Import OneMinuteTimer.






Lemma digit_inj (a b : Z) :
  0 <= a < 10 -> 0 <= b < 10 -> digit a = digit b -> a = b.
Proof.
  intros Ha Hb H. unfold digit in H.
  apply (f_equal nat_of_ascii) in H.
  rewrite !nat_ascii_embedding in H by lia. lia.
Qed.


(** X13.  Between 0 and 60 different values never read the same. *)
Theorem readout_injective (a b : Z)
  (Ha : 0 <= a <= 60) (Hb : 0 <= b <= 60) (H : readout a = readout b) :
  a = b.
Proof.
  rewrite !readout_m_ss in H by assumption.
  unfold m_ss in H. injection H as H1 H2 H3.
  apply (f_equal nat_of_ascii) in H1, H2, H3. unfold digit in H1, H2, H3.
  assert (0 <= a / 60 <= 1 /\ 0 <= b / 60 <= 1 /\
          0 <= a mod 60 / 10 < 6 /\ 0 <= b mod 60 / 10 < 6 /\
          0 <= a mod 60 mod 10 < 10 /\ 0 <= b mod 60 mod 10 < 10 /\
          a = 60 * (a / 60) + (10 * (a mod 60 / 10) + a mod 60 mod 10) /\
          b = 60 * (b / 60) + (10 * (b mod 60 / 10) + b mod 60 mod 10))
    as (A1 & B1 & A2 & B2 & A3 & B3 & EA & EB)
    by (Z.div_mod_to_equations; lia).
  rewrite !nat_ascii_embedding in H1, H2, H3 by lia.
  rewrite EA, EB. lia.
Qed.

End ReadoutAnyValue.


(** X13 at 7 seconds: the only value that reads "0:07". *)
Lemma readout_injective_witness :
  0 <= 7 <= 60 /\ OneMinuteTimer.readout 7 = OneMinuteTimer.readout 7 /\
  7 = 7.
Proof.
  assert (H : 0 <= 7 <= 60) by (split; discriminate).
  split; [exact H|]. split; [reflexivity|].
  exact (readout_injective 7 7 H H eq_refl).
Defined.

Section JumpGridAnyTitle.

Import JumpGrid.

Open Scope string_scope.

Lemma includes_cons (d : string) (c : ascii) (s : string) :
  includes d (String c s) = false ->
  prefix d (String c s) = false /\ includes d s = false.
Proof.
  cbn [includes]. destruct (prefix d (String c s)); [discriminate|auto].
Qed.

Lemma sep_not_prefix_of_empty : prefix sep "" = false.
Proof. reflexivity. Qed.

Lemma no_sep_label (t : string) :
  includes sep t = false -> replace_sep_rest t = t.
Proof.
  induction t as [|c t IH]; intros H; [reflexivity|].
  apply includes_cons in H as [H1 H2].
  cbn [replace_sep_rest]. rewrite H1. f_equal. auto.
Qed.

Lemma cut_none (t : string) :
  cut sep t = None -> includes sep t = false.
Proof.
  induction t as [|c t IH]; [reflexivity|].
  cbn [cut includes].
  destruct (prefix sep (String c t)); [discriminate|].
  destruct (cut sep t) as [[a b]|]; [discriminate|auto].
Qed.

Lemma no_sep_cut (t : string) :
  includes sep t = false -> cut sep t = None.
Proof.
  induction t as [|c t IH]; intros H; [reflexivity|].
  apply includes_cons in H as [H1 H2].
  cbn [cut]. rewrite H1, IH by exact H2. reflexivity.
Qed.

(** Splitting starts with the text before the first separator and goes
    on with the text after it. *)
Lemma split_first (t a b : string) :
  cut sep t = Some (a, b) ->
  forall cur, split_from sep 0 cur t = (cur ++ a) :: split_from sep 0 "" b.
Proof.
  revert a. induction t as [|c t IH]; intros a Hc cur; [discriminate|].
  cbn [cut] in Hc. cbn [split_from].
  destruct (prefix sep (String c t)).
  - injection Hc as <- <-. rewrite append_nil_r.
    now rewrite split_from_skip.
  - destruct (cut sep t) as [[a' b']|]; [|discriminate].
    injection Hc as <- <-. rewrite (IH a' eq_refl).
    now rewrite append_assoc.
Qed.

Lemma split_head (b : string) :
  exists rest,
    split sep b
    = match text_before b with Some b1 => b1 | None => b end :: rest.
Proof.
  unfold split, text_before.
  destruct (cut sep b) as [[b1 b2]|] eqn:E; simpl.
  - rewrite (split_first b b1 b2 E). simpl. eauto.
  - rewrite split_from_none by now apply cut_none. simpl. eauto.
Qed.

Lemma label_with_sep (t a b : string) :
  cut sep t = Some (a, b) -> replace_sep_rest t = a ++ after_dots b.
Proof.
  revert a. induction t as [|c t IH]; intros a Hc; [discriminate|].
  cbn [cut] in Hc. cbn [replace_sep_rest].
  destruct (prefix sep (String c t)).
  - now injection Hc as <- <-.
  - destruct (cut sep t) as [[a' b']|]; [|discriminate].
    injection Hc as <- <-. simpl. f_equal. now apply IH.
Qed.

(** X14.  A title without the separator: the first line is the whole
    title; the second line is empty ([undefined]) when the title
    contains "Slide" and "Section" otherwise. *)
Theorem title_without_separator (t : string)
  (H : includes sep t = false) :
  text_before t = None /\ short_label t = t /\
  subtitle t = if includes "Slide" t then None else Some "Section".
Proof.
  split; [unfold text_before; now rewrite no_sep_cut|].
  split; [now apply no_sep_label|].
  unfold subtitle, split. rewrite split_from_none by exact H.
  reflexivity.
Qed.

(** X15.  A title with separators, however many: the first line is the
    text before the first separator, followed by whatever comes from the
    first line terminator after it on; for a title that contains "Slide"
    the second line is the text between the first separator and the
    second, or up to the end if there is no second, so that text after a
    second separator shows on neither line. *)
Theorem title_with_separators (t a b : string)
  (Hc : cut sep t = Some (a, b)) :
  short_label t = a ++ after_dots b /\
  (includes "Slide" t = true ->
   subtitle t
   = Some (match text_before b with Some b1 => b1 | None => b end)) /\
  (includes "Slide" t = false -> subtitle t = Some "Section").
Proof.
  split; [now apply label_with_sep|]. split.
  - intros HS. unfold subtitle, split. rewrite HS.
    rewrite (split_first t a b Hc).
    destruct (split_head b) as (rest & E). unfold split in E.
    rewrite E. reflexivity.
  - intros HS. unfold subtitle. now rewrite HS.
Qed.

Lemma prefix_append (d x y : string) :
  prefix d x = true -> prefix d (x ++ y) = true.
Proof.
  revert x. induction d as [|c d IH]; intros x H;
    [now destruct (x ++ y)|].
  destruct x as [|c' x]; [discriminate|].
  simpl in *. destruct (ascii_dec c c'); [auto|discriminate].
Qed.

Lemma cut_before_clean (t a b : string) :
  cut sep t = Some (a, b) -> includes sep a = false.
Proof.
  revert a. induction t as [|c t IH]; intros a Hc; [discriminate|].
  cbn [cut] in Hc.
  destruct (prefix sep (String c t)) eqn:E.
  - now injection Hc as <- <-.
  - destruct (cut sep t) as [[a' b']|] eqn:E'; [|discriminate].
    injection Hc as <- <-. cbn [includes].
    destruct (prefix sep (String c a')) eqn:P.
    + apply (prefix_append _ _ (sep ++ b')) in P.
      apply cut_sound in E'.
      change (String c a' ++ sep ++ b') with (String c (a' ++ sep ++ b')) in P.
      rewrite <- E' in P. congruence.
    + now apply IH.
Qed.

Lemma after_dots_suffix (x y : string) :
  after_dots (x ++ y) = "" -> after_dots y = "".
Proof.
  induction x as [|c x IH]; [auto|].
  simpl append. cbn [after_dots].
  destruct (at_line_terminator (String c (x ++ y))); [discriminate|auto].
Qed.

Lemma prefix_of_append (a y : string) : prefix a (a ++ y) = true.
Proof.
  induction a as [|c a IH]; [now destruct y|].
  simpl. destruct (ascii_dec c c); [exact IH|contradiction].
Qed.

(** X16.  For a title of one line (no line terminator in it) the first
    line of the button is a prefix of the title and holds no separator,
    so computing it twice changes nothing. *)
Theorem short_label_clean (t : string) (H : after_dots t = "") :
  prefix (short_label t) t = true /\
  includes sep (short_label t) = false /\
  short_label (short_label t) = short_label t.
Proof.
  unfold short_label.
  assert (E : prefix (replace_sep_rest t) t = true /\
              includes sep (replace_sep_rest t) = false).
  { destruct (cut sep t) as [[a b]|] eqn:Hc.
    - pose proof (cut_sound _ _ _ _ Hc) as Ht.
      rewrite (label_with_sep t a b Hc).
      assert (Hb : after_dots b = "").
      { rewrite Ht in H. apply after_dots_suffix in H.
        now apply after_dots_suffix in H. }
      rewrite Hb, append_nil_r. split.
      + rewrite Ht. apply prefix_of_append.
      + now apply (cut_before_clean t a b).
    - apply cut_none in Hc. rewrite no_sep_label by exact Hc.
      split; [|exact Hc].
      pose proof (prefix_of_append t "") as P.
      now rewrite append_nil_r in P. }
  destruct E as [E1 E2]. split; [exact E1|]. split; [exact E2|].
  now apply no_sep_label.
Qed.

End JumpGridAnyTitle.

(** X14 on a title that lacks the separator. *)
Lemma title_without_separator_witness :
  JumpGrid.includes JumpGrid.sep "Slide 20: Closing" = false /\
  JumpGrid.short_label "Slide 20: Closing" = "Slide 20: Closing"%string /\
  JumpGrid.subtitle "Slide 20: Closing" = None.
Proof.
  assert (H : JumpGrid.includes JumpGrid.sep "Slide 20: Closing" = false)
    by reflexivity.
  split; [exact H|].
  destruct (title_without_separator "Slide 20: Closing" H) as (_ & H2 & H3).
  split; [exact H2|exact H3].
Defined.

(** X15 on a title with two separators. *)
Lemma title_with_separators_witness :
  let t := "Slide 6 — KII — Practice"%string in
  JumpGrid.cut JumpGrid.sep t = Some ("Slide 6", "KII — Practice")%string /\
  JumpGrid.includes "Slide" t = true /\
  JumpGrid.short_label t = "Slide 6"%string /\
  JumpGrid.subtitle t = Some "KII"%string.
Proof.
  intros t.
  assert (Hc : JumpGrid.cut JumpGrid.sep t
               = Some ("Slide 6", "KII — Practice")%string) by reflexivity.
  assert (HS : JumpGrid.includes "Slide" t = true) by reflexivity.
  destruct (title_with_separators t _ _ Hc) as (H1 & H2 & _).
  split; [exact Hc|]. split; [exact HS|]. split; [exact H1|exact (H2 HS)].
Defined.

(** X16 on the title of the deck's last slide. *)
Lemma short_label_clean_witness :
  let t := "Appendix — Meta-Insights (Facilitator)"%string in
  JumpGrid.after_dots t = ""%string /\
  JumpGrid.includes JumpGrid.sep (JumpGrid.short_label t) = false.
Proof.
  intros t.
  assert (H : JumpGrid.after_dots t = ""%string) by reflexivity.
  split; [exact H|].
  exact (proj1 (proj2 (short_label_clean t H))).
Defined.

(** * Properties of the arrow diagrams *)

Section Diagrams.

Import View SmartArt.

(* Unfolds the geometry down to integer arithmetic. *)
Ltac layout :=
  unfold inside, covers, right_edge, bottom_edge, process_group, spine_group,
    process_viewBox, spine_viewBox;
  cbn [x y width height box text_at next text from_x to_x line_y head
       fst snd hd_error].

Lemma Some_eq {A : Type} (u v : A) : Some u = Some v -> u = v.
Proof. congruence. Qed.

Lemma nth_error_mapi {A B : Type} (f : A -> nat -> B) (l : list A) (n : nat) :
  nth_error (mapi f l) n = option_map (fun a => f a n) (nth_error l n).
Proof. unfold mapi. now rewrite nth_error_mapi_from. Qed.

Lemma process_group_at (steps : list string) (i : nat) (g : group) :
  nth_error (process_groups steps) i = Some g ->
  exists t, nth_error steps i = Some t /\ g = process_group t i.
Proof.
  unfold process_groups. rewrite nth_error_mapi.
  destruct (nth_error steps i) as [t|]; [|discriminate].
  intros [= <-]. eauto.
Qed.

(** X17.  The process diagram, for any list of steps: the [i]-th box
    carries the [i]-th step, its text anchored inside it; it lies within
    the view box exactly for [i <= 6]; an arrow leaves it exactly for
    [i < 6], from the middle of its right edge to the left edge of the
    next box, tip first; consecutive boxes do not touch.  With the seven
    steps of the source every box is within the view box and only the
    last has no arrow. *)
Theorem process_layout (steps : list string) (i : nat) (g : group)
  (Hg : nth_error (process_groups steps) i = Some g) :
  nth_error steps i = Some (text g) /\
  x (box g) = 10 + 140 * Z.of_nat i /\
  covers (box g) (text_at g) /\
  (inside process_viewBox (box g) <-> (i <= 6)%nat) /\
  (next g = None <-> (6 <= i)%nat) /\
  (forall a, next g = Some a ->
     from_x a = right_edge (box g) /\
     hd_error (head a) = Some (to_x a, line_y a) /\
     y (box g) <= line_y a <= bottom_edge (box g) /\
     line_y a = snd (text_at g) /\
     forall g', nth_error (process_groups steps) (S i) = Some g' ->
       to_x a = x (box g')) /\
  (forall g', nth_error (process_groups steps) (S i) = Some g' ->
     right_edge (box g) < x (box g')) /\
  (steps = process_steps ->
   inside process_viewBox (box g) /\ (next g = None <-> i = 6%nat)).
Proof.
  destruct (process_group_at steps i g Hg) as (t & Ht & ->).
  assert (Hnext : forall g', nth_error (process_groups steps) (S i) = Some g' ->
                    x (box g') = 10 + Z.of_nat (S i) * 140).
  { intros g' Hg'. destruct (process_group_at steps (S i) g' Hg')
      as (t' & _ & ->). reflexivity. }
  assert (Hin : inside process_viewBox (box (process_group t i))
                <-> (i <= 6)%nat).
  { layout. lia. }
  assert (Hno : next (process_group t i) = None <-> (6 <= i)%nat).
  { unfold process_group. cbn [next].
    destruct (Z.ltb_spec (Z.of_nat i) 6); split; (discriminate || lia || auto). }
  split; [exact Ht|]. split; [layout; lia|].
  split; [layout; lia|].
  split; [exact Hin|]. split; [exact Hno|]. split; [|split].
  - intros a Ha. unfold process_group in Ha. cbn [next] in Ha.
    destruct (Z.of_nat i <? 6); [|discriminate].
    apply Some_eq in Ha. subst a.
    layout. repeat split; try lia.
    intros g' Hg'. rewrite (Hnext g' Hg'). lia.
  - intros g' Hg'. rewrite (Hnext g' Hg'). layout. lia.
  - intros ->.
    assert (Hi : (i < List.length process_steps)%nat).
    { apply nth_error_Some. rewrite Ht. discriminate. }
    change (List.length process_steps) with 7%nat in Hi.
    split; [apply Hin; lia|]. rewrite Hno. lia.
Qed.

Lemma spine_group_at (boxes : list (Z * string)) (i : nat) (g : group) :
  nth_error (spine_groups boxes) i = Some g ->
  exists b, nth_error boxes i = Some b /\ g = spine_group b i.
Proof.
  unfold spine_groups. rewrite nth_error_mapi.
  destruct (nth_error boxes i) as [b|]; [|discriminate].
  intros [= <-]. eauto.
Qed.

(** X18.  The story-spine diagram, for any list of boxes: the [i]-th
    group draws the [i]-th box 240 wide with its label anchored inside;
    an arrow leaves it exactly for [i < 3], from the right edge 40 to the
    right, tip first.  With the four boxes of the source every box is
    within the view box, only the last has no arrow, and each arrow's tip
    stops 20 short of the next box. *)
Theorem spine_layout (boxes : list (Z * string)) (i : nat) (g : group)
  (Hg : nth_error (spine_groups boxes) i = Some g) :
  nth_error boxes i = Some (x (box g), text g) /\
  width (box g) = 240 /\
  covers (box g) (text_at g) /\
  (next g = None <-> (3 <= i)%nat) /\
  (forall a, next g = Some a ->
     from_x a = right_edge (box g) /\ to_x a = from_x a + 40 /\
     hd_error (head a) = Some (to_x a, line_y a) /\
     y (box g) <= line_y a <= bottom_edge (box g)) /\
  (boxes = spine_boxes ->
   inside spine_viewBox (box g) /\ (next g = None <-> i = 3%nat) /\
   forall a g', next g = Some a ->
     nth_error (spine_groups boxes) (S i) = Some g' ->
     to_x a + 20 = x (box g')).
Proof.
  destruct (spine_group_at boxes i g Hg) as ([bx lbl] & Hb & ->).
  assert (Hno : next (spine_group (bx, lbl) i) = None <-> (3 <= i)%nat).
  { unfold spine_group. cbn [next].
    destruct (Z.ltb_spec (Z.of_nat i) 3); split; (discriminate || lia || auto). }
  split; [exact Hb|]. split; [reflexivity|].
  split; [layout; lia|].
  split; [exact Hno|]. split.
  - intros a Ha. unfold spine_group in Ha. cbn [next] in Ha.
    destruct (Z.of_nat i <? 3); [|discriminate].
    apply Some_eq in Ha. subst a.
    layout. repeat split; lia.
  - intros ->.
    assert (Hi : (i < List.length spine_boxes)%nat).
    { apply nth_error_Some. rewrite Hb. discriminate. }
    change (List.length spine_boxes) with 4%nat in Hi.
    split; [|split; [rewrite Hno; lia|]].
    + destruct i as [|[|[|[|i]]]]; try lia;
        injection Hb as <- <-; layout; lia.
    + intros a g' Ha Hg'.
      destruct (spine_group_at _ _ _ Hg') as ([bx' lbl'] & Hb' & ->).
      unfold spine_group in Ha. cbn [next] in Ha.
      destruct (Z.of_nat i <? 3); [|discriminate].
    apply Some_eq in Ha. subst a.
      destruct i as [|[|[|[|i]]]]; try lia;
        injection Hb as <- <-; try discriminate Hb';
        injection Hb' as <- <-; layout; lia.
Qed.

End Diagrams.

(** X17 on the last box of the process diagram. *)
Lemma process_layout_witness :
  exists g,
    nth_error (SmartArt.process_groups SmartArt.process_steps) 6 = Some g /\
    SmartArt.inside SmartArt.process_viewBox (SmartArt.box g) /\
    (SmartArt.next g = None <-> 6%nat = 6%nat).
Proof.
  eexists. split; [reflexivity|].
  exact (proj2 (proj2 (proj2 (proj2 (proj2 (proj2 (proj2
           (process_layout SmartArt.process_steps 6 _ eq_refl)))))))
           eq_refl).
Defined.

(** X18 on the first box of the story spine. *)
Lemma spine_layout_witness :
  exists g,
    nth_error (SmartArt.spine_groups SmartArt.spine_boxes) 0 = Some g /\
    SmartArt.inside SmartArt.spine_viewBox (SmartArt.box g).
Proof.
  eexists. split; [reflexivity|].
  exact (proj1 (proj2 (proj2 (proj2 (proj2 (proj2
           (spine_layout SmartArt.spine_boxes 0 _ eq_refl))))) eq_refl)).
Defined.
